(** * Processed-file registry and upload pipeline

    A shallow embedding of the two client pages of the file-processing UI:

    - [ui/app/logs/files/page.tsx]       (component [FilesPage]), and
    - [ui/app/logs/files/[id]/page.tsx]  (component [FileDetailPage]).

    Both are React function components.  A component is modelled by the
    record of its [useState] cells, its effects and event handlers by
    computations in a small state-and-exception monad [JS], and everything
    the handlers reach outside the component (the [localStorage] slot, the
    network, the console and the toasts) by a [World].  What the runtime
    decides is a parameter: the answers of [JSON.parse] and
    [JSON.stringify] (class [JSON]) and whether the storage area takes a
    write (class [Storage]). *)

From stdpp Require Import base strings list gmap.

Open Scope string_scope.
Open Scope list_scope.

(** ** Values *)

(** [interface ProcessedFile] — the same declaration in both pages. *)
Record ProcessedFile : Type := mkProcessedFile {
  id : string;
  filename : string;
  content : string;
  processedAt : string;
}.

#[global] Instance ProcessedFile_eq_dec : EqDecision ProcessedFile.
Proof. solve_decision. Defined.

(** The browser's [File]: the handlers read only its [name]. *)
Record File : Type := mkFile { name : string }.

#[global] Instance File_eq_dec : EqDecision File.
Proof. solve_decision. Defined.

(** What a [catch (error)] clause can receive: an [Error] instance with its
    message, or any other thrown value. *)
Inductive Thrown : Type :=
  | ErrorObj (message : string)
  | NonError.

(** JavaScript truthiness of a string and of a nullable string. *)
Definition truthy (s : string) : bool := negb (String.eqb s "").

Definition truthy_opt (o : option string) : bool :=
  match o with
  | Some s => truthy s
  | None => false
  end.

(** [a || b] on a nullable string [a] and a string [b]. *)
Definition or_else (a : option string) (b : string) : string :=
  match a with
  | Some s => if truthy s then s else b
  | None => b
  end.

(** ** The world outside the component *)

Inductive Level : Type := LogLevel | ErrorLevel.

(** The observable actions of a page, in the order they happen. *)
Inductive Effect : Type :=
  | Console (lvl : Level) (label : string)
  | ToastError (msg : string)
  | ToastSuccess (msg : string)
  | StorageWrite (key value : string)
  | FetchPost (url : string) (field : string) (body : File)
  | ResetInput (element : string).

Record World : Type := mkWorld {
  localStorage : gmap string string;
  inflight : list File;
  trace : list Effect;
}.

Definition STORAGE_KEY : string := "llama-stack-processed-files".

(** ** Computations *)

Inductive Completion (A : Type) : Type :=
  | Normal (a : A)
  | Throw (t : Thrown).
Arguments Normal {A} a.
Arguments Throw {A} t.

(** The storage area of the browser: how [setItem] answers the write of a
    value under a key, given what the area holds.  [Normal] is a write
    that is stored; [Throw] is a write the area refuses (a full or a
    disabled storage), with the exception it raises. *)
Class Storage : Type := {
  setItem_outcome : gmap string string -> string -> string -> Completion unit;
}.

(** A computation over the pending state [S] of a component's [useState]
    cells and the world; it completes normally or throws. *)
Definition JS (S A : Type) : Type := S -> World -> Completion A * S * World.

Section Monad.
Context {S : Type}.
Context `{Storage}.

Definition ret {A} (a : A) : JS S A := fun s w => (Normal a, s, w).

Definition bind {A B} (m : JS S A) (k : A -> JS S B) : JS S B :=
  fun s w =>
    match m s w with
    | (Normal a, s', w') => k a s' w'
    | (Throw t, s', w') => (Throw t, s', w')
    end.

Definition throw {A} (t : Thrown) : JS S A := fun s w => (Throw t, s, w).

(** [try { body } catch (e) { handler e } finally { fin }]. *)
Definition try_catch_finally
    (body : JS S unit) (handler : Thrown -> JS S unit) (fin : JS S unit)
    : JS S unit :=
  fun s w =>
    let '(c1, s1, w1) := body s w in
    let '(c2, s2, w2) :=
      match c1 with
      | Normal a => (Normal a, s1, w1)
      | Throw t => handler t s1 w1
      end in
    let '(c3, s3, w3) := fin s2 w2 in
    match c3 with
    | Normal _ => (c2, s3, w3)
    | Throw t => (Throw t, s3, w3)
    end.

(** [try { body } catch (e) { handler e }]. *)
Definition try_catch (body : JS S unit) (handler : Thrown -> JS S unit)
    : JS S unit :=
  try_catch_finally body handler (ret tt).

(** A state setter of [useState], called with an updater. *)
Definition set_state (f : S -> S) : JS S unit :=
  fun s w => (Normal tt, f s, w).

Definition emit (e : Effect) : JS S unit :=
  fun s w =>
    (Normal tt, s,
     {| localStorage := localStorage w;
        inflight := inflight w;
        trace := trace w ++ [e] |}).

Definition console_log (label : string) : JS S unit :=
  emit (Console LogLevel label).

Definition console_error (label : string) : JS S unit :=
  emit (Console ErrorLevel label).

Definition toast_error (msg : string) : JS S unit := emit (ToastError msg).

Definition toast_success (msg : string) : JS S unit :=
  emit (ToastSuccess msg).

(** [localStorage.getItem(key)]: [null] for a key that is not there. *)
Definition localStorage_getItem (key : string) : JS S (option string) :=
  fun s w => (Normal (localStorage w !! key), s, w).

(** [localStorage.setItem(key, value)]: the value is stored, or the area
    refuses the write and the call throws, the area left as it was. *)
Definition localStorage_setItem (key value : string) : JS S unit :=
  fun s w =>
    match setItem_outcome (localStorage w) key value with
    | Normal _ =>
        (Normal tt, s,
         {| localStorage := <[key := value]> (localStorage w);
            inflight := inflight w;
            trace := trace w ++ [StorageWrite key value] |})
    | Throw reason => (Throw reason, s, w)
    end.

(** [fetch(url, { method: "POST", body: formData })] with the file under
    the form field [field]: the request leaves, the promise is pending. *)
Definition fetch_post (url field : string) (body : File) : JS S unit :=
  fun s w =>
    (Normal tt, s,
     {| localStorage := localStorage w;
        inflight := inflight w ++ [body];
        trace := trace w ++ [FetchPost url field body] |}).

(** A call that completes as the runtime decided. *)
Definition lift {A} (c : Completion A) : JS S A := fun s w => (c, s, w).
End Monad.

Declare Scope js_scope.
Delimit Scope js_scope with js.
Notation "'do' x <- m ; k" := (bind m (fun x => k))
  (at level 10, x name, m at level 100, k at level 200) : js_scope.
Notation "m ;; k" := (bind m (fun _ => k))
  (at level 100, k at level 200, right associativity) : js_scope.
Open Scope js_scope.

(** ** The conversion service *)

(** The body of a conversion response as [handleUpload] reads it: the
    [content] and [filename] properties, each possibly missing. *)
Record ResultJson : Type := mkResultJson {
  r_content : option string;
  r_filename : option string;
}.

(** A [Response]; [json] is how [response.json()] settles. *)
Record Response : Type := mkResponse {
  ok : bool;
  statusText : string;
  json : Completion ResultJson;
}.

(** How the promise of [fetch] settles. *)
Inductive FetchOutcome : Type :=
  | Fulfilled (response : Response)
  | Rejected (reason : Thrown).

(** [error instanceof Error ? error.message : "Unknown error occurred"]. *)
Definition error_text (error : Thrown) : string :=
  match error with
  | ErrorObj message => message
  | NonError => "Unknown error occurred"
  end.

(** ** The list page: [FilesPage] *)

(** The four [useState] cells of [FilesPage]. *)
Record FilesPage : Type := mkFilesPage {
  files : list ProcessedFile;
  isUploading : bool;
  selectedFile : option File;
  isLoading : bool;
}.

Definition initial_page : FilesPage :=
  {| files := []; isUploading := false; selectedFile := None;
     isLoading := true |}.

Definition setFiles (f : list ProcessedFile -> list ProcessedFile)
    : JS FilesPage unit :=
  set_state (fun s =>
    {| files := f (files s); isUploading := isUploading s;
       selectedFile := selectedFile s; isLoading := isLoading s |}).

Definition setIsUploading (b : bool) : JS FilesPage unit :=
  set_state (fun s =>
    {| files := files s; isUploading := b;
       selectedFile := selectedFile s; isLoading := isLoading s |}).

Definition setSelectedFile (f : option File) : JS FilesPage unit :=
  set_state (fun s =>
    {| files := files s; isUploading := isUploading s;
       selectedFile := f; isLoading := isLoading s |}).

Definition setIsLoading (b : bool) : JS FilesPage unit :=
  set_state (fun s =>
    {| files := files s; isUploading := isUploading s;
       selectedFile := selectedFile s; isLoading := b |}).

(** What [renderContent] returns. *)
Inductive Content : Type :=
  | LoadingSkeleton
  | EmptyState
  | FilesTable (rows : list ProcessedFile).

Definition renderContent (s : FilesPage) : Content :=
  if isLoading s then LoadingSkeleton
  else if Nat.eqb (List.length (files s)) 0 then EmptyState
  else FilesTable (files s).

(** [disabled={isUploading}] on the file input. *)
Definition input_disabled (s : FilesPage) : bool := isUploading s.

(** [disabled={!selectedFile || isUploading}] on the upload button. *)
Definition button_disabled (s : FilesPage) : bool :=
  match selectedFile s with
  | Some _ => isUploading s
  | None => true
  end.

(** What happens to a mounted list page. *)
Inductive Event : Type :=
  | ChangeFile (picked : option File)
  | ClickUpload
  | FetchSettled (outcome : FetchOutcome) (uuid now : string).

(** The dependency array [[files, isLoading]] of the save effect.  React
    compares with [Object.is]; the page replaces [files] only by the array
    just parsed (together with [isLoading]) or by a longer one, so the
    comparison of the values decides the same. *)
Definition deps_changed (prev next : FilesPage) : bool :=
  negb (bool_decide (files prev = files next)
        && Bool.eqb (isLoading prev) (isLoading next)).

(** The [JSON] object of the runtime: [JSON.parse] at the type the pages
    give its result, [ProcessedFile[]], throwing on a text that is not
    JSON, and [JSON.stringify] on the registry.  [JSON_parse text = Normal l]
    reads: the text is JSON for the array of records [l].  A text that is
    valid JSON of another shape has no place in this typed view; what the
    list page does with one is followed in [Untyped]. *)
Class JSON : Type := {
  JSON_parse : string -> Completion (list ProcessedFile);
  JSON_stringify : list ProcessedFile -> string;
}.

Section Runtime.
Context `{JSON}.
Context `{Storage}.

(** "Load files from localStorage on mount". *)
Definition load_effect : JS FilesPage unit :=
  try_catch_finally
    (do stored <- localStorage_getItem STORAGE_KEY;
     match stored with
     | Some text =>
         if truthy text then
           do parsedFiles <- lift (JSON_parse text);
           setFiles (fun _ => parsedFiles)
         else ret tt
     | None => ret tt
     end)
    (fun error => console_error "Error loading files from localStorage:")
    (setIsLoading false).

(** "Save files to localStorage whenever they change"; [snap] is the
    render whose [files] and [isLoading] the effect closes over. *)
Definition save_effect (snap : FilesPage) : JS FilesPage unit :=
  if negb (isLoading snap) then
    try_catch
      (localStorage_setItem STORAGE_KEY (JSON_stringify (files snap)))
      (fun error => console_error "Error saving files to localStorage:")
  else ret tt.

Definition handleFileSelect (picked : option File) : JS FilesPage unit :=
  match picked with
  | Some file => setSelectedFile (Some file)
  | None => ret tt
  end.

(** [handleUpload] up to its first [await]; [selected] is the
    [selectedFile] of the render the handler closes over. *)
Definition handleUpload_start (selected : option File)
    : JS FilesPage unit :=
  match selected with
  | None => toast_error "Please select a file to upload"
  | Some file =>
      setIsUploading true ;;
      fetch_post "/api/v1/file-processors/process-upload" "file" file
  end.

(** [handleUpload] from the moment [fetch] settles: the rest of the [try]
    block, then [catch] and [finally].  [uuid] and [now] are what
    [crypto.randomUUID()] and [new Date().toISOString()] return. *)
Definition handleUpload_resume
    (selected : File) (outcome : FetchOutcome) (uuid now : string)
    : JS FilesPage unit :=
  try_catch_finally
    (do response <-
       match outcome with
       | Fulfilled response => ret response
       | Rejected reason => throw reason
       end;
     (if negb (ok response) then
        throw (ErrorObj ("Failed to process file: " ++ statusText response))
      else ret tt) ;;
     do result <- lift (json response);
     console_log "API Response:" ;;
     console_log "Content length:" ;;
     (if negb (truthy_opt (r_content result)) then
        throw (ErrorObj "API returned no content")
      else ret tt) ;;
     let newFile :=
       {| id := uuid;
          filename := or_else (r_filename result) (name selected);
          content := default "" (r_content result);
          processedAt := now |} in
     console_log "Storing file:" ;;
     setFiles (fun prev => newFile :: prev) ;;
     toast_success
       ("File processed successfully: " ++ filename newFile
        ++ " has been converted to markdown") ;;
     setSelectedFile None ;;
     emit (ResetInput "file-upload"))
    (fun error =>
       console_error "Error processing file:" ;;
       toast_error ("Error processing file: " ++ error_text error))
    (setIsUploading false).

(** *** Rendering and events *)

Definition get_state : JS FilesPage FilesPage :=
  fun s w => (Normal s, s, w).

(** After a commit, the effects whose dependencies changed since the
    render [prev] run against the new render. *)
Definition rerender (prev : FilesPage) : JS FilesPage unit :=
  do cur <- get_state;
  if deps_changed prev cur then save_effect cur else ret tt.

(** The first commit: both effects run, in the order they are declared,
    against the first render. *)
Definition first_commit : JS FilesPage unit :=
  load_effect ;; save_effect initial_page.

Definition mount : JS FilesPage unit :=
  first_commit ;; rerender initial_page.

(** The promise of the oldest request in flight settles. *)
Definition take_inflight : JS FilesPage (option File) :=
  fun s w =>
    match inflight w with
    | [] => (Normal None, s, w)
    | body :: rest =>
        (Normal (Some body), s,
         {| localStorage := localStorage w; inflight := rest;
            trace := trace w |})
    end.

(** An event reaches its handler unless the control is disabled in the
    render [snap] on screen. *)
Definition handle (ev : Event) (snap : FilesPage) : JS FilesPage unit :=
  match ev with
  | ChangeFile picked =>
      if input_disabled snap then ret tt else handleFileSelect picked
  | ClickUpload =>
      if button_disabled snap then ret tt
      else handleUpload_start (selectedFile snap)
  | FetchSettled outcome uuid now =>
      do request <- take_inflight;
      match request with
      | Some selected => handleUpload_resume selected outcome uuid now
      | None => ret tt
      end
  end.

Definition dispatch (ev : Event) : JS FilesPage unit :=
  do snap <- get_state;
  handle ev snap ;; rerender snap.

Fixpoint run (evs : list Event) : JS FilesPage unit :=
  match evs with
  | [] => ret tt
  | ev :: rest => dispatch ev ;; run rest
  end.
End Runtime.

(** ** The detail page: [FileDetailPage] *)

Module Detail.
(** The two [useState] cells of [FileDetailPage]. *)
Record State : Type := mkState {
  file : option ProcessedFile;
  isLoading : bool;
}.

Definition initial : State := {| file := None; isLoading := true |}.

Definition setFile (f : ProcessedFile) : JS State unit :=
  set_state (fun s => {| file := Some f; isLoading := isLoading s |}).

Definition setIsLoading (b : bool) : JS State unit :=
  set_state (fun s => {| file := file s; isLoading := b |}).

(** [file.content ? <markdown> : "No content available"]. *)
Inductive Pane : Type :=
  | Shown (text : string)
  | NoContentAvailable.

Definition pane (text : string) : Pane :=
  if truthy text then Shown text else NoContentAvailable.

(** What the component returns; [processed] is the [processedAt] the
    page passes to [toLocaleString]. *)
Inductive View : Type :=
  | Skeleton
  | FileNotFound
  | FileView (heading processed : string) (converted raw : Pane).

Definition render (s : State) : View :=
  if isLoading s then Skeleton
  else
    match file s with
    | None => FileNotFound
    | Some f =>
        FileView (filename f) (processedAt f)
                 (pane (content f)) (pane (content f))
    end.

Section Runtime.
Context `{JSON}.

(** The effect of the page, run when the view is entered with the
    [fileId] of the route. *)
Definition load_effect (fileId : string) : JS State unit :=
  try_catch_finally
    (do stored <- localStorage_getItem STORAGE_KEY;
     console_log "Loading file from localStorage, fileId:" ;;
     match stored with
     | Some text =>
         if truthy text then
           do files <- lift (JSON_parse text);
           console_log "All files in localStorage:" ;;
           let foundFile :=
             List.find (fun f => String.eqb (id f) fileId) files in
           console_log "Found file:" ;;
           match foundFile with
           | Some f =>
               console_log "File content length:" ;;
               setFile f
           | None => ret tt
           end
         else ret tt
     | None => ret tt
     end)
    (fun error => console_error "Error loading file from localStorage:")
    (setIsLoading false).

(** Entering the view: the first render, then the effect. *)
Definition enter (fileId : string) (w : World)
    : Completion unit * State * World :=
  load_effect fileId initial w.
End Runtime.
End Detail.

(** ** A runtime to run the model on *)

Module Sample.
(** A parser that knows the texts of a table and rejects every other
    text, and a serializer that writes the four fields in order. *)
Definition parse_table (table : list (string * list ProcessedFile))
    (text : string) : Completion (list ProcessedFile) :=
  match List.find (fun row => String.eqb (fst row) text) table with
  | Some row => Normal (snd row)
  | None => Throw (ErrorObj "Unexpected token in JSON")
  end.

Definition dquote : string := String (Ascii.ascii_of_nat 34) EmptyString.

Definition quote (s : string) : string := dquote ++ s ++ dquote.

Definition stringify_file (f : ProcessedFile) : string :=
  "{" ++ quote "id" ++ ":" ++ quote (id f) ++ ","
      ++ quote "filename" ++ ":" ++ quote (filename f) ++ ","
      ++ quote "content" ++ ":" ++ quote (content f) ++ ","
      ++ quote "processedAt" ++ ":" ++ quote (processedAt f) ++ "}".

Definition stringify (l : list ProcessedFile) : string :=
  "[" ++ String.concat "," (map stringify_file l) ++ "]".

Definition report : ProcessedFile :=
  {| id := "id-1"; filename := "report.pdf"; content := "# Report";
     processedAt := "2025-01-01T00:00:00.000Z" |}.

Definition notes : ProcessedFile :=
  {| id := "id-0"; filename := "notes.docx"; content := "";
     processedAt := "2024-12-31T00:00:00.000Z" |}.

Definition parse : string -> Completion (list ProcessedFile) :=
  parse_table [("[]", []); (stringify [report; notes], [report; notes])].

#[export] Instance runtime : JSON :=
  {| JSON_parse := parse; JSON_stringify := stringify |}.

(** A storage area that stores every write, and one that refuses every
    write. *)
Definition unlimited : Storage :=
  {| setItem_outcome := fun _ _ _ => Normal tt |}.

Definition full : Storage :=
  {| setItem_outcome := fun _ _ _ => Throw (ErrorObj "QuotaExceededError") |}.

Definition world (slot : option string) : World :=
  {| localStorage :=
       match slot with
       | Some text => {[ STORAGE_KEY := text ]}
       | None => ∅
       end;
     inflight := [];
     trace := [] |}.

Definition success : FetchOutcome :=
  Fulfilled {| ok := true; statusText := "OK";
               json := Normal {| r_content := Some "# Report";
                                 r_filename := Some "report.pdf" |} |}.
End Sample.

(** ** The mount of the list page over every value of [JSON.parse]

    The page declares its registry as [ProcessedFile[]], and the model
    above follows that declaration.  [JSON.parse] is not bound by it: a
    slot that holds valid JSON of another shape loads as that value.  This
    module follows the mount of the list page over every JSON value. *)

Module Untyped.

(** A JSON value.  The page never computes with a number, it only compares
    one with 0: [zero] says whether the number is 0, [digits] is its
    text. *)
#[local] Unset Elimination Schemes.
Inductive Value : Type :=
  | Null
  | Boolean (b : bool)
  | Number (zero : bool) (digits : string)
  | Str (s : string)
  | Array (items : list Value)
  | Object (fields : list (string * Value)).
#[local] Set Elimination Schemes.

(** The own property [name] of an object that came out of [JSON.parse]. *)
Definition own (fields : list (string * Value)) (name : string)
    : option Value :=
  match List.find (fun kv => String.eqb (fst kv) name) fields with
  | Some kv => Some (snd kv)
  | None => None
  end.

(** A record as a value: the properties of the object literal [newFile],
    in its order. *)
Definition of_file (f : ProcessedFile) : Value :=
  Object [("id", Str (id f)); ("filename", Str (filename f));
          ("content", Str (content f)); ("processedAt", Str (processedAt f))].

Definition of_files (l : list ProcessedFile) : Value :=
  Array (List.map of_file l).

(** The runtime: [JSON.parse] and [JSON.stringify] on values, and what
    React and the engine make of the table row of one element of the
    registry ([file.id] as key, [file.filename] as child, the date of
    [file.processedAt]): the row renders or the render throws. *)
Class Engine : Type := {
  parse : string -> Completion Value;
  stringify : Value -> string;
  render_row : Value -> Completion unit;
}.

(** The four [useState] cells of [FilesPage], the registry untyped. *)
Record State : Type := mkState {
  files : Value;
  isUploading : bool;
  selectedFile : option File;
  isLoading : bool;
}.

Definition initial : State :=
  {| files := Array []; isUploading := false; selectedFile := None;
     isLoading := true |}.

Definition setFiles (v : Value) : JS State unit :=
  set_state (fun s =>
    {| files := v; isUploading := isUploading s;
       selectedFile := selectedFile s; isLoading := isLoading s |}).

Definition setIsLoading (b : bool) : JS State unit :=
  set_state (fun s =>
    {| files := files s; isUploading := isUploading s;
       selectedFile := selectedFile s; isLoading := b |}).

(** What [renderContent] returns. *)
Inductive Content : Type :=
  | LoadingSkeleton
  | EmptyState
  | FilesTable (rows : list Value).

(** [files.length === 0]: reading a property of [null] throws, a boolean
    or a number has no [length], a string and an array have their own, an
    object has the [length] it owns. *)
Definition length_is_zero (v : Value) : Completion bool :=
  match v with
  | Null =>
      Throw (ErrorObj "Cannot read properties of null (reading 'length')")
  | Boolean _ | Number _ _ => Normal false
  | Str s => Normal (String.eqb s "")
  | Array items =>
      Normal match items with
             | [] => true
             | _ :: _ => false
             end
  | Object fields =>
      Normal match own fields "length" with
             | Some (Number true _) => true
             | _ => false
             end
  end.

Section Runtime.
Context `{Engine}.
Context `{Storage}.

(** The rows of the table, from the first element to the last. *)
Fixpoint render_rows (items : list Value) : Completion unit :=
  match items with
  | [] => Normal tt
  | item :: rest =>
      match render_row item with
      | Normal _ => render_rows rest
      | Throw reason => Throw reason
      end
  end.

(** [files.map(file => ...)]: only an array has [map]. *)
Definition map_rows (v : Value) : Completion (list Value) :=
  match v with
  | Array items =>
      match render_rows items with
      | Normal _ => Normal items
      | Throw reason => Throw reason
      end
  | _ => Throw (ErrorObj "files.map is not a function")
  end.

Definition renderContent (s : State) : Completion Content :=
  if isLoading s then Normal LoadingSkeleton
  else
    match length_is_zero (files s) with
    | Throw reason => Throw reason
    | Normal true => Normal EmptyState
    | Normal false =>
        match map_rows (files s) with
        | Normal rows => Normal (FilesTable rows)
        | Throw reason => Throw reason
        end
    end.

(** "Load files from localStorage on mount". *)
Definition load_effect : JS State unit :=
  try_catch_finally
    (do stored <- localStorage_getItem STORAGE_KEY;
     match stored with
     | Some text =>
         if truthy text then
           do parsedFiles <- lift (parse text);
           setFiles parsedFiles
         else ret tt
     | None => ret tt
     end)
    (fun error => console_error "Error loading files from localStorage:")
    (setIsLoading false).

(** "Save files to localStorage whenever they change". *)
Definition save_effect (snap : State) : JS State unit :=
  if negb (isLoading snap) then
    try_catch
      (localStorage_setItem STORAGE_KEY (stringify (files snap)))
      (fun error => console_error "Error saving files to localStorage:")
  else ret tt.

(** A render of the page; an exception of [renderContent] is an exception
    of the render, which nothing in the page catches. *)
Definition render : JS State Content :=
  fun s w => (renderContent s, s, w).

(** The mount: the first render, the first commit with both effects, the
    render of the state the load left, and the save effect of that render,
    whose dependency [isLoading] has changed. *)
Definition mount : JS State unit :=
  render ;;
  load_effect ;;
  save_effect initial ;;
  do snap <- (fun s w => (Normal s, s, w));
  render ;;
  save_effect snap.
End Runtime.

(** The values on which the render of a loaded page throws. *)
Inductive foreign `{Engine} : Value -> Prop :=
  | foreign_null : foreign Null
  | foreign_boolean b : foreign (Boolean b)
  | foreign_number zero digits : foreign (Number zero digits)
  | foreign_string s : s <> "" -> foreign (Str s)
  | foreign_object fields :
      (forall digits, own fields "length" <> Some (Number true digits)) ->
      foreign (Object fields)
  | foreign_row items item reason :
      In item items -> render_row item = Throw reason ->
      foreign (Array items).

(** *** A runtime to run the untyped mount on *)

Definition parse_table (table : list (string * Value)) (text : string)
    : Completion Value :=
  match List.find (fun row => String.eqb (fst row) text) table with
  | Some row => Normal (snd row)
  | None => Throw (ErrorObj "Unexpected token in JSON")
  end.

Fixpoint show (v : Value) : string :=
  match v with
  | Null => "null"
  | Boolean true => "true"
  | Boolean false => "false"
  | Number _ digits => digits
  | Str s => Sample.quote s
  | Array items =>
      ("[" ++ String.concat "," (List.map show items) ++ "]")%string
  | Object fields =>
      ("{" ++ String.concat ","
               (List.map
                  (fun kv =>
                     match kv with
                     | (k, x) => (Sample.quote k ++ ":" ++ show x)%string
                     end) fields)
          ++ "}")%string
  end.

(** [file.id] throws on [null]; an object is not a valid React child. *)
Definition sample_row (item : Value) : Completion unit :=
  match item with
  | Null => Throw (ErrorObj "Cannot read properties of null (reading 'id')")
  | Object fields =>
      match own fields "filename" with
      | Some (Object _) =>
          Throw (ErrorObj "Objects are not valid as a React child")
      | _ => Normal tt
      end
  | _ => Normal tt
  end.

Definition sample : Engine :=
  {| parse :=
       parse_table
         [("null", Null); ("[]", Array []);
          (show (of_files [Sample.report; Sample.notes]),
           of_files [Sample.report; Sample.notes])];
     stringify := show;
     render_row := sample_row |}.
End Untyped.

(** ** Vocabulary of the properties *)

(** What the user gets to see of a trace: the toasts. *)
Definition is_toast (e : Effect) : bool :=
  match e with
  | ToastError _ | ToastSuccess _ => true
  | _ => false
  end.

Definition toasts (t : list Effect) : list Effect := List.filter is_toast t.

(** The writes to durable storage of a trace, oldest first. *)
Definition is_write (e : Effect) : bool :=
  match e with
  | StorageWrite _ _ => true
  | _ => false
  end.

Definition writes (t : list Effect) : list Effect := List.filter is_write t.

(** The conversion requests of a trace. *)
Definition is_request (e : Effect) : bool :=
  match e with
  | FetchPost _ _ _ => true
  | _ => false
  end.

Definition requests (t : list Effect) : list Effect :=
  List.filter is_request t.

(** The durable slot of the registry. *)
Definition slot (w : World) : option string := localStorage w !! STORAGE_KEY.

(** A conversion the page accepts: a response with a success status whose
    body carries a [content] that is there and not empty, and possibly a
    [filename]. *)
Inductive conversion : FetchOutcome -> string -> option string -> Prop :=
  | conversion_accepted response text fn :
      ok response = true ->
      json response = Normal {| r_content := Some text; r_filename := fn |} ->
      text <> "" ->
      conversion (Fulfilled response) text fn.

(** The ways an upload fails, each with the cause it reports. *)
Inductive upload_failure : FetchOutcome -> string -> Prop :=
  | network_failure reason :
      upload_failure (Rejected reason) (error_text reason)
  | non_success_status response :
      ok response = false ->
      upload_failure (Fulfilled response)
        ("Failed to process file: " ++ statusText response)
  | unreadable_body response reason :
      ok response = true ->
      json response = Throw reason ->
      upload_failure (Fulfilled response) (error_text reason)
  | missing_content response result :
      ok response = true ->
      json response = Normal result ->
      r_content result = None \/ r_content result = Some "" ->
      upload_failure (Fulfilled response) "API returned no content".

(** What a failed upload leaves behind, seen from the state [s] and the
    world [w] it resumed in: no exception, the registry and the selection
    as they were, no upload in progress, and one more toast, an error
    toast that names the cause. *)
Definition failed_upload (cause : string) (s : FilesPage) (w : World)
    (r : Completion unit * FilesPage * World) : Prop :=
  r.1.1 = Normal tt
  /\ files r.1.2 = files s
  /\ selectedFile r.1.2 = selectedFile s
  /\ isUploading r.1.2 = false
  /\ toasts (trace r.2) =
       toasts (trace w) ++ [ToastError ("Error processing file: " ++ cause)].

(** The record an accepted conversion makes. *)
Definition new_record (selected : File) (text : string) (fn : option string)
    (uuid now : string) : ProcessedFile :=
  {| id := uuid; filename := or_else fn (name selected);
     content := text; processedAt := now |}.

(** One upload from the user's side: a file is picked, the button is
    clicked, the request settles. *)
Record Upload : Type := mkUpload {
  u_file : File;
  u_outcome : FetchOutcome;
  u_uuid : string;
  u_now : string;
}.

Definition upload_events (u : Upload) : list Event :=
  [ChangeFile (Some (u_file u)); ClickUpload;
   FetchSettled (u_outcome u) (u_uuid u) (u_now u)].

Definition accepted (u : Upload) : Prop :=
  exists text fn, conversion (u_outcome u) text fn.

(** The identifiers the generator hands out along a run. *)
Fixpoint generated (evs : list Event) : list string :=
  match evs with
  | [] => []
  | FetchSettled _ uuid _ :: rest => uuid :: generated rest
  | _ :: rest => generated rest
  end.

(** The filename of a new record as the specification words it: the
    filename of the response or, if that is absent, the name of the file
    that was selected. *)
Definition spec_filename (fn : option string) (selected : File) : string :=
  match fn with
  | Some f => f
  | None => name selected
  end.

(** The requests in flight follow the upload flag: none while no upload is
    in progress, exactly one while one is. *)
Definition serialized (s : FilesPage) (w : World) : Prop :=
  if isUploading s then exists file, inflight w = [file]
  else inflight w = [].

(** ** The layout: [FilesLayout] *)

Module Layout.
Record BreadcrumbSegment : Type := mkSegment {
  label : string;
  href : option string;
}.

(** The segments of the breadcrumb; [fileId] is [params.id], [None] on a
    route that has no such parameter. *)
Definition breadcrumbSegments (fileId : option string)
    : list BreadcrumbSegment :=
  {| label := "Files"; href := Some "/logs/files" |}
  :: match fileId with
     | Some i =>
         if truthy i then
           [{| label := ("Details (" ++ i ++ ")")%string; href := None |}]
         else []
     | None => []
     end.

(** [fileId && pathname === `/logs/files/${fileId}`], as a condition. *)
Definition isBaseDetailPage (fileId : option string) (pathname : string)
    : bool :=
  match fileId with
  | Some i => truthy i && String.eqb pathname ("/logs/files/" ++ i)
  | None => false
  end.

(** What the layout puts above its children: the breadcrumb or nothing. *)
Definition FilesLayout (fileId : option string) (pathname : string)
    : option (list BreadcrumbSegment) :=
  if isBaseDetailPage fileId pathname then Some (breadcrumbSegments fileId)
  else None.
End Layout.

(** The path that a row of the table, and the View button in it, push to
    the router. *)
Definition row_target (file : ProcessedFile) : string :=
  "/logs/files/" ++ id file.

(** ** The events of the list page as a transition relation *)

Section Transitions.
Context `{JSON}.
Context `{Storage}.

(** The world after the save effect of a loaded render that holds the
    registry [l]: the slot is written, or the write is refused and the
    [catch] logs it. *)
Definition saved (l : list ProcessedFile) (w : World) : World :=
  match setItem_outcome (localStorage w) STORAGE_KEY (JSON_stringify l) with
  | Normal _ =>
      {| localStorage := <[STORAGE_KEY := JSON_stringify l]> (localStorage w);
         inflight := inflight w;
         trace := trace w ++ [StorageWrite STORAGE_KEY (JSON_stringify l)] |}
  | Throw _ =>
      {| localStorage := localStorage w;
         inflight := inflight w;
         trace :=
           trace w ++ [Console ErrorLevel "Error saving files to localStorage:"]
      |}
  end.

(** The world after the save effect of the render [s]. *)
Definition persisted (s : FilesPage) (w : World) : World :=
  if isLoading s then w else saved (files s) w.

(** The page an accepted conversion leaves. *)
Definition stored (r : ProcessedFile) (s : FilesPage) : FilesPage :=
  {| files := r :: files s; isUploading := false; selectedFile := None;
     isLoading := isLoading s |}.

(** The trace of the success path of [handleUpload]. *)
Definition success_trace (r : ProcessedFile) : list Effect :=
  [Console LogLevel "API Response:";
   Console LogLevel "Content length:";
   Console LogLevel "Storing file:";
   ToastSuccess
     ("File processed successfully: " ++ filename r
      ++ " has been converted to markdown");
   ResetInput "file-upload"].

(** The trace of the [catch] of [handleUpload]. *)
Definition failure_trace (cause : string) : list Effect :=
  [Console ErrorLevel "Error processing file:";
   ToastError ("Error processing file: " ++ cause)].

Inductive transition
    : Event -> FilesPage -> World -> FilesPage -> World -> Prop :=
  | change_ignored picked s w :
      picked = None \/ isUploading s = true ->
      transition (ChangeFile picked) s w s w
  | change_selected file s w :
      isUploading s = false ->
      transition (ChangeFile (Some file)) s w
        {| files := files s; isUploading := false;
           selectedFile := Some file; isLoading := isLoading s |} w
  | click_ignored s w :
      button_disabled s = true ->
      transition ClickUpload s w s w
  | click_started file s w :
      selectedFile s = Some file -> isUploading s = false ->
      transition ClickUpload s w
        {| files := files s; isUploading := true;
           selectedFile := Some file; isLoading := isLoading s |}
        {| localStorage := localStorage w;
           inflight := inflight w ++ [file];
           trace :=
             trace w ++
             [FetchPost "/api/v1/file-processors/process-upload" "file" file]
        |}
  | settled_idle outcome uuid now s w :
      inflight w = [] ->
      transition (FetchSettled outcome uuid now) s w s w
  | settled_failed selected rest outcome uuid now cause pre s w :
      inflight w = selected :: rest ->
      upload_failure outcome cause ->
      toasts pre = [] -> writes pre = [] -> requests pre = [] ->
      transition (FetchSettled outcome uuid now) s w
        {| files := files s; isUploading := false;
           selectedFile := selectedFile s; isLoading := isLoading s |}
        {| localStorage := localStorage w; inflight := rest;
           trace := trace w ++ pre ++ failure_trace cause |}
  | settled_accepted selected rest outcome uuid now text fn s w :
      inflight w = selected :: rest ->
      conversion outcome text fn ->
      transition (FetchSettled outcome uuid now) s w
        (stored (new_record selected text fn uuid now) s)
        (persisted (stored (new_record selected text fn uuid now) s)
           {| localStorage := localStorage w; inflight := rest;
              trace :=
                trace w
                ++ success_trace (new_record selected text fn uuid now) |}).

(** While an upload is in progress, the one request in flight carries the
    file that is selected; otherwise nothing is in flight. *)
Definition in_flight_selected (s : FilesPage) (w : World) : Prop :=
  if isUploading s then
    exists file, selectedFile s = Some file /\ inflight w = [file]
  else inflight w = [].
End Transitions.

(** The entries of a trace that only reach the console. *)
Definition is_console (e : Effect) : Prop :=
  match e with
  | Console _ _ => True
  | _ => False
  end.

(** ** Properties of the list page *)

Section FilesPageProperties.
Context `{JSON}.
Context `{Storage}.

Lemma toasts_app t1 t2 : toasts (t1 ++ t2) = toasts t1 ++ toasts t2.
Proof. apply List.filter_app. Qed.

Lemma writes_app t1 t2 : writes (t1 ++ t2) = writes t1 ++ writes t2.
Proof. apply List.filter_app. Qed.

Lemma requests_app t1 t2 : requests (t1 ++ t2) = requests t1 ++ requests t2.
Proof. apply List.filter_app. Qed.

(** The save effect of a render that is still loading does nothing. *)
Lemma save_effect_loading snap s w :
  isLoading snap = true -> save_effect snap s w = (Normal tt, s, w).
Proof. intros E. unfold save_effect. now rewrite E. Qed.

(** The save effect of a loaded render writes the registry to the slot,
    or logs that the storage refused; it never throws. *)
Lemma save_effect_loaded snap s w :
  isLoading snap = false ->
  save_effect snap s w = (Normal tt, s, saved (files snap) w).
Proof.
  intros E. unfold save_effect, saved. rewrite E. simpl.
  unfold try_catch, try_catch_finally, localStorage_setItem.
  now destruct (setItem_outcome _ _ _).
Qed.

Lemma saved_inflight l w : inflight (saved l w) = inflight w.
Proof. unfold saved. now destruct (setItem_outcome _ _ _). Qed.

Lemma saved_toasts l w : toasts (trace (saved l w)) = toasts (trace w).
Proof.
  unfold saved. destruct (setItem_outcome _ _ _); simpl;
    now rewrite toasts_app, app_nil_r.
Qed.

Lemma saved_requests l w : requests (trace (saved l w)) = requests (trace w).
Proof.
  unfold saved. destruct (setItem_outcome _ _ _); simpl;
    now rewrite requests_app, app_nil_r.
Qed.

Lemma saved_other_keys l w k :
  k <> STORAGE_KEY -> localStorage (saved l w) !! k = localStorage w !! k.
Proof.
  intros Hk. unfold saved. destruct (setItem_outcome _ _ _); simpl;
    [now rewrite lookup_insert_ne|reflexivity].
Qed.

(** A write the storage accepts. *)
Lemma saved_accepted l w :
  setItem_outcome (localStorage w) STORAGE_KEY (JSON_stringify l) = Normal tt ->
  saved l w =
    {| localStorage := <[STORAGE_KEY := JSON_stringify l]> (localStorage w);
       inflight := inflight w;
       trace := trace w ++ [StorageWrite STORAGE_KEY (JSON_stringify l)] |}.
Proof. intros E. unfold saved. now rewrite E. Qed.

(** A write the storage refuses. *)
Lemma saved_refused l w reason :
  setItem_outcome (localStorage w) STORAGE_KEY (JSON_stringify l)
  = Throw reason ->
  saved l w =
    {| localStorage := localStorage w;
       inflight := inflight w;
       trace :=
         trace w ++ [Console ErrorLevel "Error saving files to localStorage:"]
    |}.
Proof. intros E. unfold saved. now rewrite E. Qed.

(** The save effect adds one entry to the trace, never a toast. *)
Lemma saved_trace l w :
  exists e, trace (saved l w) = trace w ++ [e] /\ is_toast e = false.
Proof.
  unfold saved. destruct (setItem_outcome _ _ _); simpl; eauto.
Qed.

(** The save effect writes at most once, and the slot it leaves is the
    serialization it wrote or the slot it found. *)
Lemma saved_writes l w :
  writes (trace (saved l w)) = writes (trace w)
  \/ writes (trace (saved l w)) =
       writes (trace w) ++ [StorageWrite STORAGE_KEY (JSON_stringify l)].
Proof.
  unfold saved. destruct (setItem_outcome _ _ _); simpl;
    rewrite writes_app; simpl; [now right|left; apply app_nil_r].
Qed.

(** The load effect never throws, ends the loading state, and touches
    neither the storage nor the network; the trace grows by the console
    line of the [catch] at most. *)
Lemma load_effect_total s w :
  exists l t,
    load_effect s w =
      (Normal tt,
       {| files := l; isUploading := isUploading s;
          selectedFile := selectedFile s; isLoading := false |},
       {| localStorage := localStorage w; inflight := inflight w;
          trace := trace w ++ t |})
    /\ writes t = [] /\ toasts t = [] /\ requests t = []
    /\ match slot w with
       | Some text =>
           if truthy text then
             match JSON_parse text with
             | Normal parsed => l = parsed
             | Throw _ => l = files s
             end
           else l = files s
       | None => l = files s
       end.
Proof.
  unfold load_effect, try_catch_finally, bind, localStorage_getItem, slot.
  destruct w as [st fl tr]; simpl.
  destruct (st !! STORAGE_KEY) as [text|]; simpl.
  - destruct (truthy text); simpl.
    + unfold lift. destruct (JSON_parse text) as [parsed|t]; simpl.
      * exists parsed, []. now rewrite app_nil_r.
      * eexists _, [_]. repeat split; reflexivity.
    + exists (files s), []. now rewrite app_nil_r.
  - exists (files s), []. now rewrite app_nil_r.
Qed.

Lemma truthy_true s : truthy s = true <-> s <> "".
Proof.
  unfold truthy. destruct (String.eqb_spec s ""); simpl; split; congruence.
Qed.

Lemma truthy_false s : truthy s = false <-> s = "".
Proof.
  unfold truthy. destruct (String.eqb_spec s ""); simpl; split; congruence.
Qed.

(** Every way the request can settle is an accepted conversion or one of
    the failures. *)
Lemma outcome_cases outcome :
  (exists text fn, conversion outcome text fn)
  \/ (exists cause, upload_failure outcome cause).
Proof.
  destruct outcome as [response|reason].
  - destruct (ok response) eqn:Eok.
    + destruct (json response) as [[[text|] fn]|reason] eqn:Ejson.
      * destruct (String.eqb_spec text "") as [->|Hne].
        -- right. eexists. eapply missing_content; eauto.
        -- left. exists text, fn. now constructor.
      * right. eexists. eapply missing_content; eauto.
      * right. eexists. eapply unreadable_body; eauto.
    + right. eexists. now apply non_success_status.
  - right. eexists. apply network_failure.
Qed.

(** An accepted conversion resumes into the success path. *)
Lemma resume_accepted selected outcome uuid now text fn s w :
  conversion outcome text fn ->
  let newFile :=
    {| id := uuid; filename := or_else fn (name selected);
       content := text; processedAt := now |} in
  handleUpload_resume selected outcome uuid now s w =
    (Normal tt,
     {| files := newFile :: files s; isUploading := false;
        selectedFile := None; isLoading := isLoading s |},
     {| localStorage := localStorage w; inflight := inflight w;
        trace :=
          trace w ++
          [Console LogLevel "API Response:";
           Console LogLevel "Content length:";
           Console LogLevel "Storing file:";
           ToastSuccess
             ("File processed successfully: " ++ or_else fn (name selected)
              ++ " has been converted to markdown");
           ResetInput "file-upload"] |}).
Proof.
  intros [response c fn' Eok Ejson Hne]. apply truthy_true in Hne.
  unfold handleUpload_resume, try_catch_finally, bind, lift; simpl.
  rewrite Eok, Ejson; simpl. rewrite Hne; simpl.
  repeat rewrite <- app_assoc. reflexivity.
Qed.

(** A failure resumes into [catch] and [finally]. *)
Lemma resume_failed selected outcome uuid now cause s w :
  upload_failure outcome cause ->
  exists pre,
    handleUpload_resume selected outcome uuid now s w =
      (Normal tt,
       {| files := files s; isUploading := false;
          selectedFile := selectedFile s; isLoading := isLoading s |},
       {| localStorage := localStorage w; inflight := inflight w;
          trace :=
            trace w ++ pre ++
            [Console ErrorLevel "Error processing file:";
             ToastError ("Error processing file: " ++ cause)] |})
    /\ toasts pre = [] /\ writes pre = [] /\ requests pre = [].
Proof.
  intros Hfail.
  unfold handleUpload_resume, try_catch_finally, bind, lift.
  destruct Hfail as [reason|response Eok|response reason Eok Ejson
                    |response result Eok Ejson Hc]; simpl.
  - exists []. repeat rewrite <- app_assoc. now simpl.
  - rewrite Eok; simpl. exists []. repeat rewrite <- app_assoc. now simpl.
  - rewrite Eok, Ejson; simpl. exists [].
    repeat rewrite <- app_assoc. now simpl.
  - rewrite Eok, Ejson; simpl.
    assert (truthy_opt (r_content result) = false) as ->.
    { destruct Hc as [-> | ->]; reflexivity. }
    simpl. eexists [_; _]. repeat rewrite <- app_assoc. now simpl.
Qed.

(** *** One event at a time *)

Lemma cons_neq {A} (x : A) (l : list A) : l <> x :: l.
Proof. intros E. apply (f_equal (@List.length A)) in E. simpl in E. lia. Qed.

Lemma rerender_same prev s w :
  files prev = files s -> isLoading prev = isLoading s ->
  rerender prev s w = (Normal tt, s, w).
Proof.
  intros Ef El. unfold rerender, bind, get_state, deps_changed.
  rewrite Ef, El, bool_decide_eq_true_2, Bool.eqb_reflx by reflexivity.
  reflexivity.
Qed.

Lemma rerender_grown prev s w :
  (exists x, files s = x :: files prev) ->
  rerender prev s w = save_effect s s w.
Proof.
  intros [x Ef]. unfold rerender, bind, get_state, deps_changed.
  rewrite bool_decide_eq_false_2; [reflexivity|].
  rewrite Ef. apply cons_neq.
Qed.

Lemma dispatch_change picked s w :
  dispatch (ChangeFile picked) s w =
    (Normal tt,
     match picked with
     | Some file =>
         if isUploading s then s
         else {| files := files s; isUploading := isUploading s;
                 selectedFile := Some file; isLoading := isLoading s |}
     | None => s
     end, w).
Proof.
  unfold dispatch, bind, get_state, handle, input_disabled; simpl.
  destruct (isUploading s) eqn:Eu; simpl.
  - rewrite rerender_same by reflexivity. now destruct picked.
  - destruct picked as [file|]; simpl.
    + rewrite rerender_same by reflexivity. now rewrite Eu.
    + now rewrite rerender_same.
Qed.

Lemma dispatch_click_disabled s w :
  button_disabled s = true -> dispatch ClickUpload s w = (Normal tt, s, w).
Proof.
  intros E. unfold dispatch, bind, get_state, handle; simpl.
  rewrite E; simpl. now apply rerender_same.
Qed.

Lemma dispatch_click_enabled file s w :
  selectedFile s = Some file -> isUploading s = false ->
  dispatch ClickUpload s w =
    (Normal tt,
     {| files := files s; isUploading := true;
        selectedFile := selectedFile s; isLoading := isLoading s |},
     {| localStorage := localStorage w;
        inflight := inflight w ++ [file];
        trace :=
          trace w ++
          [FetchPost "/api/v1/file-processors/process-upload" "file" file]
     |}).
Proof.
  intros Es Eu. unfold dispatch, bind, get_state, handle, button_disabled.
  simpl. rewrite Es, Eu; simpl. rewrite rerender_same by reflexivity.
  now rewrite ?Es, ?Eu.
Qed.

Lemma dispatch_settled_idle outcome uuid now s w :
  inflight w = [] ->
  dispatch (FetchSettled outcome uuid now) s w = (Normal tt, s, w).
Proof.
  intros E. unfold dispatch, handle, take_inflight, get_state, bind; simpl.
  rewrite E; simpl. now apply rerender_same.
Qed.

Lemma dispatch_settled_failed selected rest outcome uuid now cause s w :
  inflight w = selected :: rest ->
  upload_failure outcome cause ->
  exists pre,
    dispatch (FetchSettled outcome uuid now) s w =
      (Normal tt,
       {| files := files s; isUploading := false;
          selectedFile := selectedFile s; isLoading := isLoading s |},
       {| localStorage := localStorage w; inflight := rest;
          trace :=
            trace w ++ pre ++
            [Console ErrorLevel "Error processing file:";
             ToastError ("Error processing file: " ++ cause)] |})
    /\ toasts pre = [] /\ writes pre = [] /\ requests pre = [].
Proof.
  intros E Hfail. unfold dispatch, handle, take_inflight, get_state, bind.
  simpl. rewrite E; simpl.
  destruct (resume_failed selected outcome uuid now cause s
              {| localStorage := localStorage w; inflight := rest;
                 trace := trace w |} Hfail) as (pre & -> & Hpre).
  simpl. exists pre. split; [|exact Hpre]. now rewrite rerender_same.
Qed.

Lemma dispatch_settled_accepted selected rest outcome uuid now text fn s w :
  inflight w = selected :: rest ->
  conversion outcome text fn ->
  exists w',
    dispatch (FetchSettled outcome uuid now) s w =
      (Normal tt,
       {| files := new_record selected text fn uuid now :: files s;
          isUploading := false; selectedFile := None;
          isLoading := isLoading s |}, w')
    /\ inflight w' = rest
    /\ requests (trace w') = requests (trace w)
    /\ (isLoading s = true ->
        localStorage w' = localStorage w
        /\ writes (trace w') = writes (trace w))
    /\ (isLoading s = false ->
        setItem_outcome (localStorage w) STORAGE_KEY
          (JSON_stringify (new_record selected text fn uuid now :: files s))
        = Normal tt ->
        slot w' =
          Some (JSON_stringify
                  (new_record selected text fn uuid now :: files s))).
Proof.
  intros E Hok. unfold dispatch, handle, take_inflight, get_state, bind.
  simpl. rewrite E; simpl.
  rewrite (resume_accepted selected outcome uuid now text fn s _ Hok).
  simpl. rewrite rerender_grown by (simpl; eauto).
  destruct (isLoading s) eqn:El.
  - rewrite save_effect_loading by reflexivity. eexists; split; [reflexivity|].
    simpl. rewrite writes_app, requests_app; simpl.
    rewrite !app_nil_r. repeat split; congruence.
  - rewrite save_effect_loaded by reflexivity. eexists; split; [reflexivity|].
    simpl. rewrite saved_inflight, saved_requests. simpl.
    rewrite !requests_app; simpl. rewrite !app_nil_r.
    repeat split; try congruence.
    intros _ Hacc. rewrite saved_accepted by exact Hacc.
    unfold slot; simpl. apply lookup_insert_eq.
Qed.

(** Every event is handled without an exception; it leaves [isLoading]
    alone, writes nothing to the storage while the page is loading, and
    moves the registry, the upload flag and the requests in flight in one
    of a few ways. *)
Lemma dispatch_cases ev s w :
  exists s' w',
    dispatch ev s w = (Normal tt, s', w')
    /\ isLoading s' = isLoading s
    /\ (isLoading s = true ->
        localStorage w' = localStorage w
        /\ writes (trace w') = writes (trace w))
    /\ match ev with
       | ChangeFile _ =>
           files s' = files s /\ isUploading s' = isUploading s
           /\ inflight w' = inflight w
       | ClickUpload =>
           files s' = files s
           /\ (s' = s /\ w' = w
               \/ isUploading s = false /\ isUploading s' = true
                  /\ exists file, inflight w' = inflight w ++ [file])
       | FetchSettled outcome uuid now =>
           inflight w = [] /\ s' = s /\ w' = w
           \/ exists selected rest,
                inflight w = selected :: rest /\ inflight w' = rest
                /\ isUploading s' = false
                /\ (files s' = files s
                    \/ exists r, files s' = r :: files s /\ id r = uuid)
       end.
Proof.
  destruct ev as [picked| |outcome uuid now].
  - rewrite dispatch_change. do 2 eexists. split; [reflexivity|].
    destruct picked as [file|]; [destruct (isUploading s) eqn:Eu|];
      simpl; repeat split; auto.
  - destruct (button_disabled s) eqn:Eb.
    + rewrite dispatch_click_disabled by assumption.
      do 2 eexists. split; [reflexivity|]. repeat split; auto.
    + unfold button_disabled in Eb.
      destruct (selectedFile s) as [file|] eqn:Es; [|discriminate].
      rewrite (dispatch_click_enabled file) by assumption.
      do 2 eexists. split; [reflexivity|]. simpl.
      rewrite writes_app, app_nil_r. repeat split; eauto.
  - destruct (inflight w) as [|selected rest] eqn:Ei.
    + rewrite dispatch_settled_idle by assumption.
      do 2 eexists. split; [reflexivity|]. repeat split; auto.
    + destruct (outcome_cases outcome) as [(text & fn & Hok)|(cause & Hfail)].
      * destruct (dispatch_settled_accepted selected rest outcome uuid now
                    text fn s w Ei Hok) as (w' & -> & Hi & _ & Hl & _).
        do 2 eexists. split; [reflexivity|]. simpl.
        repeat split; try apply Hl; auto.
        right. exists selected, rest. repeat split; auto.
        right. eexists. split; reflexivity.
      * destruct (dispatch_settled_failed selected rest outcome uuid now
                    cause s w Ei Hfail) as (pre & -> & _ & Hw & _).
        do 2 eexists. split; [reflexivity|]. simpl.
        rewrite !writes_app, Hw; simpl. rewrite app_nil_r.
        repeat split; auto.
        right. exists selected, rest. repeat split; auto.
Qed.

Lemma run_nil s w : run [] s w = (Normal tt, s, w).
Proof. reflexivity. Qed.

Lemma run_cons ev evs s w s' w' :
  dispatch ev s w = (Normal tt, s', w') ->
  run (ev :: evs) s w = run evs s' w'.
Proof. intros E. simpl. unfold bind. now rewrite E. Qed.

Lemma run_app evs1 evs2 s w s' w' :
  run evs1 s w = (Normal tt, s', w') ->
  run (evs1 ++ evs2) s w = run evs2 s' w'.
Proof.
  revert s w. induction evs1 as [|ev evs1 IH]; intros s w E.
  - rewrite run_nil in E. now inversion E.
  - destruct (dispatch_cases ev s w) as (s1 & w1 & E1 & _).
    rewrite <- app_comm_cons, (run_cons _ _ _ _ _ _ E1).
    rewrite (run_cons _ _ _ _ _ _ E1) in E. now apply IH.
Qed.

(** C1 — Load before save.  No persist runs before the initial load has
    completed.  (1) The save effect of a render whose [isLoading] is true
    changes neither the state nor the world: it writes nothing.  (2) In the
    first commit, where the load effect and the save effect both run, the
    storage is as it was when the commit ends and the trace has gained no
    write, although the load has just resolved.  (3) Whatever events reach a
    page that is still loading, the storage stays as it was and the trace
    gains no write. *)
Theorem persist_waits_for_load :
  (forall snap s w,
     isLoading snap = true -> save_effect snap s w = (Normal tt, s, w))
  /\ (forall w, exists s' w',
        first_commit initial_page w = (Normal tt, s', w')
        /\ isLoading s' = false
        /\ localStorage w' = localStorage w
        /\ writes (trace w') = writes (trace w))
  /\ (forall evs s w,
        isLoading s = true ->
        exists s' w',
          run evs s w = (Normal tt, s', w')
          /\ isLoading s' = true
          /\ localStorage w' = localStorage w
          /\ writes (trace w') = writes (trace w)).
Proof.
  split; [exact save_effect_loading|split].
  - intros w. unfold first_commit, bind.
    destruct (load_effect_total initial_page w)
      as (l & t & -> & Hw & _ & _ & _).
    rewrite save_effect_loading by reflexivity.
    do 2 eexists. split; [reflexivity|]. simpl.
    now rewrite writes_app, Hw, app_nil_r.
  - induction evs as [|ev evs IH]; intros s w El.
    + exists s, w. now rewrite run_nil.
    + destruct (dispatch_cases ev s w) as (s1 & w1 & E1 & El1 & Hst & _).
      rewrite (run_cons _ _ _ _ _ _ E1).
      destruct (Hst El) as [Hs1 Hw1].
      destruct (IH s1 w1) as (s' & w' & E & El' & Hs' & Hw'); [congruence|].
      exists s', w'. repeat split; congruence.
Qed.

(** A slot that does not parse loads as the empty registry. *)
Lemma unparsable_slot_loads_empty w text reason :
  slot w = Some text -> JSON_parse text = Throw reason ->
  exists t,
    load_effect initial_page w =
      (Normal tt,
       {| files := []; isUploading := false; selectedFile := None;
          isLoading := false |},
       {| localStorage := localStorage w; inflight := inflight w;
          trace := trace w ++ t |}).
Proof.
  intros Es Ep.
  destruct (load_effect_total initial_page w) as (l & t & E & _ & _ & _ & Hl).
  exists t. rewrite E. simpl. rewrite Es, Ep in Hl.
  enough (l = []) as -> by reflexivity. now destruct (truthy text).
Qed.

(** C5 — Fail-soft load.  When the slot is absent, holds the empty text, or
    holds a text that [JSON.parse] rejects, the load effect of a fresh page
    completes normally, leaves the registry the empty sequence, ends the
    loading state, leaves the storage alone, and shows the user nothing: the
    trace gains no toast. *)
Theorem load_recovers_silently w :
  slot w = None
  \/ slot w = Some ""
  \/ (exists text reason,
        slot w = Some text /\ JSON_parse text = Throw reason) ->
  exists t,
    load_effect initial_page w =
      (Normal tt,
       {| files := []; isUploading := false; selectedFile := None;
          isLoading := false |},
       {| localStorage := localStorage w; inflight := inflight w;
          trace := trace w ++ t |})
    /\ toasts t = [].
Proof.
  intros Hslot.
  destruct (load_effect_total initial_page w)
    as (l & t & E & _ & Ht & _ & Hl).
  exists t. split; [|exact Ht]. rewrite E. simpl.
  enough (l = []) as -> by reflexivity.
  destruct Hslot as [Es|[Es|(text & reason & Es & Ep)]]; rewrite Es in Hl.
  - exact Hl.
  - exact Hl.
  - rewrite Ep in Hl. now destruct (truthy text).
Qed.

(** The whole mount: the state the load leaves, and the save of it. *)
Lemma mount_total w :
  exists l t,
    mount initial_page w =
      (Normal tt,
       {| files := l; isUploading := false; selectedFile := None;
          isLoading := false |},
       saved l
         {| localStorage := localStorage w; inflight := inflight w;
            trace := trace w ++ t |})
    /\ writes t = [] /\ toasts t = [] /\ requests t = []
    /\ load_effect initial_page w =
         (Normal tt,
          {| files := l; isUploading := false; selectedFile := None;
             isLoading := false |},
          {| localStorage := localStorage w; inflight := inflight w;
             trace := trace w ++ t |}).
Proof.
  destruct (load_effect_total initial_page w)
    as (l & t & E & Hw & Ht & Hr & _).
  exists l, t. repeat split; try assumption.
  unfold mount, first_commit, bind. rewrite E.
  rewrite save_effect_loading by reflexivity.
  unfold rerender, bind, get_state, deps_changed; simpl.
  rewrite andb_false_r; simpl.
  now rewrite save_effect_loaded by reflexivity.
Qed.


Lemma failed_upload_intro cause s w pre :
  toasts pre = [] ->
  failed_upload cause s w
    (Normal tt,
     {| files := files s; isUploading := false;
        selectedFile := selectedFile s; isLoading := isLoading s |},
     {| localStorage := localStorage w; inflight := inflight w;
        trace :=
          trace w ++ pre ++
          [Console ErrorLevel "Error processing file:";
           ToastError ("Error processing file: " ++ cause)] |}).
Proof.
  intros Hpre. unfold failed_upload; simpl.
  rewrite !toasts_app, Hpre. repeat split; reflexivity.
Qed.

(** C2 — Conversion content requirement.  A response is accepted only with
    content: when the status is not a success, or the body carries a
    [content] that is missing or empty, the upload ends as a failure — the
    registry is as it was, so no record is made, and an error toast names
    the cause: the status text for a bad status, the lack of content for a
    success status. *)
Theorem content_is_required selected response uuid now s w :
  ok response = false
  \/ (exists result,
        json response = Normal result
        /\ (r_content result = None \/ r_content result = Some "")) ->
  failed_upload
    (if ok response then "API returned no content"
     else "Failed to process file: " ++ statusText response)
    s w (handleUpload_resume selected (Fulfilled response) uuid now s w).
Proof.
  intros Hbad.
  assert (upload_failure (Fulfilled response)
            (if ok response then "API returned no content"
             else "Failed to process file: " ++ statusText response))
    as Hfail.
  { destruct (ok response) eqn:Eok.
    - destruct Hbad as [|(result & Ejson & Hc)]; [discriminate|].
      eapply missing_content; eauto.
    - now apply non_success_status. }
  destruct (resume_failed selected _ uuid now _ s w Hfail)
    as (pre & -> & Hpre & _).
  now apply failed_upload_intro.
Qed.

(** C6 — Failed upload.  When the request in flight settles as a failure
    (the network fails, the status is not a success, or the body is
    unusable), handling the event raises nothing, the registry and the
    pending selection are as they were, no upload is in progress any more,
    and the user gets one new toast, an error toast that names the cause;
    nothing is written to the storage. *)
Theorem failure_leaves_page_unchanged
    selected rest outcome uuid now cause s w :
  inflight w = selected :: rest ->
  upload_failure outcome cause ->
  failed_upload cause s w (dispatch (FetchSettled outcome uuid now) s w)
  /\ localStorage (dispatch (FetchSettled outcome uuid now) s w).2
     = localStorage w.
Proof.
  intros Ei Hfail.
  destruct (dispatch_settled_failed selected rest outcome uuid now cause s w
              Ei Hfail) as (pre & -> & Hpre & _).
  split; [|reflexivity].
  unfold failed_upload; simpl.
  rewrite !toasts_app, Hpre. repeat split; reflexivity.
Qed.

(** C7 (as amended) — New record.  When the request in flight settles as
    an accepted conversion, one new record is put at the head of the
    registry and the selection is cleared; once the page has loaded, the
    registry with the new record is what the slot then holds, provided the
    storage accepts the write.  The record
    has the generated id, the content of the response and the current
    timestamp; its filename is the filename of the response when that is
    there and not empty, and the name of the selected file when the
    response has no filename or an empty one. *)
Theorem accepted_upload_record
    selected rest outcome text fn uuid now s w :
  inflight w = selected :: rest ->
  conversion outcome text fn ->
  exists r s' w',
    dispatch (FetchSettled outcome uuid now) s w = (Normal tt, s', w')
    /\ files s' = r :: files s
    /\ selectedFile s' = None
    /\ id r = uuid
    /\ content r = text
    /\ processedAt r = now
    /\ (forall f, fn = Some f -> f <> "" -> filename r = f)
    /\ (fn = None \/ fn = Some "" -> filename r = name selected)
    /\ (isLoading s = false ->
        setItem_outcome (localStorage w) STORAGE_KEY
          (JSON_stringify (r :: files s)) = Normal tt ->
        slot w' = Some (JSON_stringify (r :: files s))).
Proof.
  intros Ei Hok.
  destruct (dispatch_settled_accepted selected rest outcome uuid now text fn
              s w Ei Hok) as (w' & -> & _ & _ & _ & Hslot).
  do 3 eexists. split; [reflexivity|]. simpl.
  repeat split; try assumption.
  - intros f -> Hne. simpl. apply truthy_true in Hne. now rewrite Hne.
  - intros [-> | ->]; reflexivity.
Qed.

(** One upload, from the file dialog to the settled request. *)
Lemma upload_cycle u s w :
  accepted u -> isUploading s = false -> inflight w = [] ->
  exists r s' w',
    run (upload_events u) s w = (Normal tt, s', w')
    /\ files s' = r :: files s
    /\ id r = u_uuid u /\ processedAt r = u_now u
    /\ isUploading s' = false /\ inflight w' = [].
Proof.
  intros (text & fn & Hok) Eu Ei. unfold upload_events.
  pose proof (dispatch_change (Some (u_file u)) s w) as E1.
  rewrite Eu in E1.
  set (s1 := {| files := files s; isUploading := false;
                selectedFile := Some (u_file u);
                isLoading := isLoading s |}) in E1.
  pose proof (dispatch_click_enabled (u_file u) s1 w eq_refl eq_refl) as E2.
  simpl in E2. rewrite Ei in E2. simpl in E2.
  match type of E2 with _ = (_, ?s2, ?w2) =>
    destruct (dispatch_settled_accepted (u_file u) [] (u_outcome u)
                (u_uuid u) (u_now u) text fn s2 w2 eq_refl Hok)
      as (w' & E3 & Hi & _)
  end.
  simpl in E3.
  rewrite (run_cons _ _ _ _ _ _ E1), (run_cons _ _ _ _ _ _ E2),
    (run_cons _ _ _ _ _ _ E3), run_nil.
  do 3 eexists. split; [reflexivity|]. simpl. repeat split. exact Hi.
Qed.

(** C3 — Ordering.  (1) An accepted conversion puts its record at the head
    of the registry, in front of the records that were there, which stay as
    they were.  (2) After any number of accepted uploads, done one after
    the other, the registry is the new records, the most recent first, in
    front of the old registry; so the timestamps of the registry read tN,
    ..., t1 and then those of the old registry. *)
Theorem uploads_prepend :
  (forall selected rest outcome text fn uuid now s w,
     inflight w = selected :: rest ->
     conversion outcome text fn ->
     exists r,
       files (dispatch (FetchSettled outcome uuid now) s w).1.2
         = r :: files s
       /\ id r = uuid /\ processedAt r = now)
  /\ (forall ups s w,
        Forall accepted ups -> isUploading s = false -> inflight w = [] ->
        exists added s' w',
          run (flat_map upload_events ups) s w = (Normal tt, s', w')
          /\ files s' = rev added ++ files s
          /\ map id added = map u_uuid ups
          /\ map processedAt added = map u_now ups
          /\ map processedAt (files s')
             = rev (map u_now ups) ++ map processedAt (files s)).
Proof.
  split.
  - intros selected rest outcome text fn uuid now s w Ei Hok.
    destruct (dispatch_settled_accepted selected rest outcome uuid now text
                fn s w Ei Hok) as (w' & -> & _).
    eexists. split; [reflexivity|]. split; reflexivity.
  - intros ups s w Hall. revert s w.
    assert (forall s w, isUploading s = false -> inflight w = [] ->
            exists added s' w',
              run (flat_map upload_events ups) s w = (Normal tt, s', w')
              /\ files s' = rev added ++ files s
              /\ map id added = map u_uuid ups
              /\ map processedAt added = map u_now ups
              /\ isUploading s' = false /\ inflight w' = []) as Hrun.
    { induction Hall as [|u ups Hu Hall IH]; intros s w Eu Ei.
      - exists [], s, w. now rewrite run_nil.
      - destruct (upload_cycle u s w Hu Eu Ei)
          as (r & s1 & w1 & E1 & Hf1 & Hid & Hat & Eu1 & Ei1).
        destruct (IH s1 w1 Eu1 Ei1)
          as (added & s' & w' & E & Hf & Hids & Hats & Eu' & Ei').
        exists (r :: added), s', w'.
        change (flat_map upload_events (u :: ups))
          with (upload_events u ++ flat_map upload_events ups).
        rewrite (run_app _ _ _ _ _ _ E1), E. simpl.
        rewrite Hf, Hf1, Hid, Hat, Hids, Hats, <- app_assoc.
        repeat split; assumption. }
    intros s w Eu Ei.
    destruct (Hrun s w Eu Ei) as (added & s' & w' & E & Hf & Hids & Hats & _).
    exists added, s', w'. repeat split; try assumption.
    now rewrite Hf, map_app, map_rev, Hats.
Qed.

Lemma dispatch_serialized ev s w s' w' :
  dispatch ev s w = (Normal tt, s', w') ->
  serialized s w -> serialized s' w'.
Proof.
  intros E Hser.
  destruct (dispatch_cases ev s w) as (s1 & w1 & E1 & _ & _ & Hshape).
  rewrite E in E1. inversion E1; subst s1 w1; clear E1.
  unfold serialized in *.
  destruct ev as [picked| |outcome uuid now].
  - destruct Hshape as (_ & -> & ->). exact Hser.
  - destruct Hshape as (_ & [[-> ->]|(Eu & -> & file & ->)]); [exact Hser|].
    rewrite Eu in Hser. rewrite Hser. now exists file.
  - destruct Hshape as [(_ & -> & ->)|(sel & rest & Ei & -> & -> & _)];
      [exact Hser|].
    destruct (isUploading s).
    + destruct Hser as [file Hf]. congruence.
    + congruence.
Qed.

Lemma run_serialized evs s w :
  serialized s w ->
  exists s' w', run evs s w = (Normal tt, s', w') /\ serialized s' w'.
Proof.
  revert s w. induction evs as [|ev evs IH]; intros s w Hser.
  - exists s, w. now rewrite run_nil.
  - destruct (dispatch_cases ev s w) as (s1 & w1 & E1 & _).
    rewrite (run_cons _ _ _ _ _ _ E1).
    apply IH. now apply (dispatch_serialized ev s w).
Qed.

(** C4 — Serialized uploads.  (1) While an upload is in progress, a click
    on the upload button changes neither the page nor the world: no request
    leaves, nothing is queued, no record is made.  (2) However the events
    of a mounted page follow each other, at most one request is in flight,
    and one is in flight exactly while an upload is in progress. *)
Theorem second_upload_is_rejected :
  (forall s w,
     isUploading s = true -> dispatch ClickUpload s w = (Normal tt, s, w))
  /\ (forall evs w,
        inflight w = [] ->
        exists s' w',
          (mount ;; run evs) initial_page w = (Normal tt, s', w')
          /\ List.length (inflight w') <= 1
          /\ (isUploading s' = true <-> List.length (inflight w') = 1)).
Proof.
  split.
  - intros s w Eu. apply dispatch_click_disabled.
    unfold button_disabled. rewrite Eu. now destruct (selectedFile s).
  - intros evs w Ei.
    destruct (mount_total w) as (l & t & E & _).
    unfold bind at 1. rewrite E.
    match goal with |- context [run evs ?s1 ?w1] =>
      destruct (run_serialized evs s1 w1) as (s' & w' & -> & Hser)
    end.
    { unfold serialized; simpl. rewrite saved_inflight. exact Ei. }
    exists s', w'. split; [reflexivity|].
    unfold serialized in Hser. destruct (isUploading s').
    + destruct Hser as [file ->]. simpl. split; [lia|]. split; reflexivity.
    + rewrite Hser. simpl. split; [lia|]. split; [discriminate|lia].
Qed.

(** C8 — Uniqueness.  Under the hypothesis that the generator returns fresh
    identifiers — the ids it hands out along a run differ from each other
    and from the ids already in the registry, which differ from each other
    — the ids of the registry are pairwise distinct after the run, whatever
    its events. *)
Theorem ids_stay_distinct evs s w :
  NoDup (generated evs ++ map id (files s)) ->
  exists s' w',
    run evs s w = (Normal tt, s', w') /\ NoDup (map id (files s')).
Proof.
  revert s w. induction evs as [|ev evs IH]; intros s w Hnd.
  - exists s, w. now rewrite run_nil.
  - destruct (dispatch_cases ev s w) as (s1 & w1 & E1 & _ & _ & Hshape).
    rewrite (run_cons _ _ _ _ _ _ E1). apply IH.
    destruct ev as [picked| |outcome uuid now]; simpl in Hnd.
    + destruct Hshape as (-> & _). exact Hnd.
    + destruct Hshape as (-> & _). exact Hnd.
    + apply NoDup_cons in Hnd as [Hnotin Hnd].
      destruct Hshape
        as [(_ & -> & _)|(sel & rest & _ & _ & _ & [->|(r & -> & Hid)])];
        try exact Hnd.
      simpl. rewrite Hid, <- Permutation_middle.
      now apply NoDup_cons.
Qed.

End FilesPageProperties.

(** ** Properties of the detail page *)

Section DetailProperties.
Context `{JSON}.

(** [Array.prototype.find] returns the first element that matches. *)
Lemma find_first {A} (p : A -> bool) before x after :
  p x = true -> (forall y, In y before -> p y = false) ->
  List.find p (before ++ x :: after) = Some x.
Proof.
  intros Hx. induction before as [|y before IH]; intros Hb; simpl.
  - now rewrite Hx.
  - rewrite (Hb y) by now left. apply IH. intros z Hz. apply Hb. now right.
Qed.

Lemma find_none {A} (p : A -> bool) l :
  (forall y, In y l -> p y = false) -> List.find p l = None.
Proof.
  induction l as [|y l IH]; intros Hl; simpl; [reflexivity|].
  rewrite (Hl y) by now left. apply IH. intros z Hz. apply Hl. now right.
Qed.

(** Entering the view never throws and leaves the storage alone; the
    record it holds afterwards is the first stored one with the id. *)
Lemma enter_total fileId w :
  exists found t,
    Detail.enter fileId w =
      (Normal tt,
       {| Detail.file := found; Detail.isLoading := false |},
       {| localStorage := localStorage w; inflight := inflight w;
          trace := trace w ++ t |})
    /\ toasts t = []
    /\ found =
         match slot w with
         | Some text =>
             if truthy text then
               match JSON_parse text with
               | Normal records =>
                   List.find (fun f => String.eqb (id f) fileId) records
               | Throw _ => None
               end
             else None
         | None => None
         end.
Proof.
  unfold Detail.enter, Detail.load_effect, try_catch_finally, bind,
    localStorage_getItem, lift, slot.
  destruct w as [st fl tr]; simpl.
  destruct (st !! STORAGE_KEY) as [text|]; simpl.
  - destruct (truthy text); simpl.
    + destruct (JSON_parse text) as [records|reason]; simpl.
      * destruct (List.find _ records) as [f|]; simpl;
          eexists _, _; rewrite <- !app_assoc; simpl;
          (split; [reflexivity|split; reflexivity]).
      * eexists _, _; rewrite <- !app_assoc; simpl.
        split; [reflexivity|split; reflexivity].
    + eexists _, _. split; [reflexivity|split; reflexivity].
  - eexists _, _. split; [reflexivity|split; reflexivity].
Qed.

(** C9 — Detail view.  Entering the detail view with an id reads the slot,
    looks the id up in the stored records from the first to the last, and
    raises nothing, whatever the slot holds.  When the stored records hold
    one with the id, the view shows the first such record: its filename,
    its timestamp and its content, in both panes (a record whose content is
    empty shows as "No content available").  When no stored record has the
    id, the view is the not-found presentation. *)
Theorem detail_view_resolves fileId w :
  (Detail.enter fileId w).1.1 = Normal tt
  /\ localStorage (Detail.enter fileId w).2 = localStorage w
  /\ (forall text before f after,
        slot w = Some text -> text <> "" ->
        JSON_parse text = Normal (before ++ f :: after) ->
        id f = fileId ->
        (forall g, In g before -> id g <> fileId) ->
        Detail.file (Detail.enter fileId w).1.2 = Some f
        /\ Detail.render (Detail.enter fileId w).1.2 =
             Detail.FileView (filename f) (processedAt f)
               (Detail.pane (content f)) (Detail.pane (content f))
        /\ (content f <> "" ->
            Detail.pane (content f) = Detail.Shown (content f)))
  /\ ((forall text records,
         slot w = Some text -> JSON_parse text = Normal records ->
         forall g, In g records -> id g <> fileId) ->
      Detail.render (Detail.enter fileId w).1.2 = Detail.FileNotFound).
Proof.
  destruct (enter_total fileId w) as (found & t & -> & _ & Hfound). simpl.
  split; [reflexivity|]. split; [reflexivity|]. split.
  - intros text before f after Es Hne Ep Hid Hbefore.
    apply truthy_true in Hne. rewrite Es, Hne, Ep in Hfound.
    rewrite find_first in Hfound.
    + subst found. unfold Detail.render; simpl.
      split; [reflexivity|]. split; [reflexivity|].
      intros Hc. unfold Detail.pane. apply truthy_true in Hc. now rewrite Hc.
    + now apply String.eqb_eq.
    + intros g Hg. apply String.eqb_neq. now apply Hbefore.
  - intros Hnone. enough (found = None) as -> by reflexivity.
    subst found. destruct (slot w) as [text|] eqn:Es; [|reflexivity].
    destruct (truthy text); [|reflexivity].
    destruct (JSON_parse text) as [records|reason] eqn:Ep; [|reflexivity].
    apply find_none. intros g Hg. apply String.eqb_neq.
    now apply (Hnone text records).
Qed.

End DetailProperties.

(** ** Sessions of the list page *)

Section SessionProperties.
Context `{JSON}.
Context `{Storage}.

(** An accepted conversion: the page it leaves, and the world after the
    save effect that follows. *)
Lemma dispatch_settled_stored selected rest outcome uuid now text fn s w :
  inflight w = selected :: rest ->
  conversion outcome text fn ->
  dispatch (FetchSettled outcome uuid now) s w =
    (Normal tt,
     stored (new_record selected text fn uuid now) s,
     persisted (stored (new_record selected text fn uuid now) s)
       {| localStorage := localStorage w; inflight := rest;
          trace :=
            trace w ++ success_trace (new_record selected text fn uuid now)
       |}).
Proof.
  intros Ei Hok.
  unfold dispatch, handle, take_inflight, get_state, bind.
  simpl. rewrite Ei; simpl.
  rewrite (resume_accepted selected outcome uuid now text fn s _ Hok).
  simpl. rewrite rerender_grown by (simpl; eauto).
  unfold persisted, stored, success_trace, new_record; simpl.
  destruct (isLoading s) eqn:El.
  - now rewrite save_effect_loading.
  - now rewrite save_effect_loaded.
Qed.

(** Every event is handled without an exception, by one transition. *)
Lemma dispatch_transition ev s w :
  exists s' w',
    dispatch ev s w = (Normal tt, s', w') /\ transition ev s w s' w'.
Proof.
  destruct ev as [picked| |outcome uuid now].
  - rewrite dispatch_change. do 2 eexists. split; [reflexivity|].
    destruct picked as [file|]; [|constructor; now left].
    destruct (isUploading s) eqn:Eu; [constructor; now right|].
    rewrite <- Eu at 1. rewrite Eu. now constructor.
  - destruct (button_disabled s) eqn:Eb.
    + rewrite dispatch_click_disabled by assumption.
      do 2 eexists. split; [reflexivity|]. now constructor.
    + unfold button_disabled in Eb.
      destruct (selectedFile s) as [file|] eqn:Es; [|discriminate].
      rewrite (dispatch_click_enabled file) by assumption.
      do 2 eexists. split; [reflexivity|]. rewrite Es. now constructor.
  - destruct (inflight w) as [|selected rest] eqn:Ei.
    + rewrite dispatch_settled_idle by assumption.
      do 2 eexists. split; [reflexivity|]. now constructor.
    + destruct (outcome_cases outcome) as [(text & fn & Hok)|(cause & Hfail)].
      * rewrite (dispatch_settled_stored selected rest outcome uuid now
                   text fn s w Ei Hok).
        do 2 eexists. split; [reflexivity|].
        now apply (settled_accepted selected rest).
      * destruct (dispatch_settled_failed selected rest outcome uuid now
                    cause s w Ei Hfail) as (pre & -> & Hpre & Hw & Hr).
        do 2 eexists. split; [reflexivity|].
        now apply (settled_failed selected rest).
Qed.

(** A property of page and world that every transition keeps holds along
    every run. *)
Lemma run_invariant (P : FilesPage -> World -> Prop) :
  (forall ev s w s' w', P s w -> transition ev s w s' w' -> P s' w') ->
  forall evs s w,
    P s w ->
    exists s' w', run evs s w = (Normal tt, s', w') /\ P s' w'.
Proof.
  intros Hstep. induction evs as [|ev evs IH]; intros s w HP.
  - exists s, w. now rewrite run_nil.
  - destruct (dispatch_transition ev s w) as (s1 & w1 & E1 & Ht).
    rewrite (run_cons _ _ _ _ _ _ E1). apply IH. now apply (Hstep ev s w).
Qed.

(** The same from the moment the page is mounted. *)
Lemma session_invariant (P : FilesPage -> World -> Prop) w :
  (forall l t,
     writes t = [] -> toasts t = [] -> requests t = [] ->
     P {| files := l; isUploading := false; selectedFile := None;
          isLoading := false |}
       (saved l
          {| localStorage := localStorage w; inflight := inflight w;
             trace := trace w ++ t |})) ->
  (forall ev s w s' w', P s w -> transition ev s w s' w' -> P s' w') ->
  forall evs,
    exists s' w',
      (mount ;; run evs) initial_page w = (Normal tt, s', w') /\ P s' w'.
Proof.
  intros Hmount Hstep evs.
  destruct (mount_total w) as (l & t & E & Hw & Ht & Hr & _).
  unfold bind at 1. rewrite E. apply run_invariant; [exact Hstep|].
  now apply Hmount.
Qed.

(** *** What a session keeps *)

Lemma persisted_inflight s w : inflight (persisted s w) = inflight w.
Proof.
  unfold persisted. destruct (isLoading s); [reflexivity|].
  apply saved_inflight.
Qed.

Lemma persisted_toasts s w :
  toasts (trace (persisted s w)) = toasts (trace w).
Proof.
  unfold persisted. destruct (isLoading s); [reflexivity|].
  apply saved_toasts.
Qed.

Lemma persisted_requests s w :
  requests (trace (persisted s w)) = requests (trace w).
Proof.
  unfold persisted. destruct (isLoading s); [reflexivity|].
  apply saved_requests.
Qed.

Lemma persisted_other_keys s w k :
  k <> STORAGE_KEY -> localStorage (persisted s w) !! k = localStorage w !! k.
Proof.
  intros Hk. unfold persisted. destruct (isLoading s); [reflexivity|].
  now apply saved_other_keys.
Qed.

Lemma persisted_trace s w :
  exists t,
    trace (persisted s w) = trace w ++ t
    /\ Forall (fun e => is_toast e = false) t.
Proof.
  unfold persisted. destruct (isLoading s).
  - exists []. rewrite app_nil_r. split; [reflexivity|constructor].
  - destruct (saved_trace (files s) w) as (e & -> & He).
    exists [e]. split; [reflexivity|]. now repeat constructor.
Qed.

(** A loaded page whose slot holds the serialization of its registry stays
    so across every transition, when the storage accepts every write to
    the slot. *)
Lemma transition_synced ev s w s' w' :
  (forall m v, setItem_outcome m STORAGE_KEY v = Normal tt) ->
  isLoading s = false /\ slot w = Some (JSON_stringify (files s)) ->
  transition ev s w s' w' ->
  isLoading s' = false /\ slot w' = Some (JSON_stringify (files s')).
Proof.
  intros Hacc [El Hs] Ht. destruct Ht; simpl; auto.
  unfold persisted; simpl. rewrite El. split; [reflexivity|].
  rewrite saved_accepted by apply Hacc. apply lookup_insert_eq.
Qed.

(** X1 — The slot follows the registry.  Take a loaded page whose slot
    holds the serialization of the registry it shows, and a storage that
    accepts every write to the slot.  Whatever events follow, the page
    stays loaded and the slot holds the serialization of the registry the
    page shows. *)
Theorem slot_follows_registry evs s w :
  isLoading s = false ->
  slot w = Some (JSON_stringify (files s)) ->
  (forall m v, setItem_outcome m STORAGE_KEY v = Normal tt) ->
  exists s' w',
    run evs s w = (Normal tt, s', w')
    /\ isLoading s' = false
    /\ slot w' = Some (JSON_stringify (files s')).
Proof.
  intros El Hs Hacc.
  apply (run_invariant
           (fun s w =>
              isLoading s = false
              /\ slot w = Some (JSON_stringify (files s)))).
  - intros ev s0 w0 s1 w1. now apply transition_synced.
  - now split.
Qed.

(** X2 — Only the one key.  A session of the list page changes no entry of
    the storage but the slot of the registry. *)
Theorem other_keys_untouched evs w k :
  k <> STORAGE_KEY ->
  exists s' w',
    (mount ;; run evs) initial_page w = (Normal tt, s', w')
    /\ localStorage w' !! k = localStorage w !! k.
Proof.
  intros Hk.
  apply (session_invariant
           (fun _ w' => localStorage w' !! k = localStorage w !! k)).
  - intros l t _ _ _. now rewrite saved_other_keys.
  - intros ev s0 w0 s1 w1 HP Ht. destruct Ht; simpl; auto.
    now rewrite persisted_other_keys.
Qed.

(** X3 — The file in flight is the file on screen.  In a session that
    starts with no request in flight, there is one request in flight
    exactly while an upload is in progress, and it carries the file that
    the page shows as selected. *)
Theorem in_flight_is_selected evs w :
  inflight w = [] ->
  exists s' w',
    (mount ;; run evs) initial_page w = (Normal tt, s', w')
    /\ in_flight_selected s' w'.
Proof.
  intros Ei. apply (session_invariant in_flight_selected).
  - intros l t _ _ _. unfold in_flight_selected. simpl.
    now rewrite saved_inflight.
  - intros ev s0 w0 s1 w1 HP Ht. unfold in_flight_selected in *.
    destruct Ht as [picked s0 w0 Hp|file s0 w0 Eu|s0 w0 Eb|file s0 w0 Es Eu
                   |outcome uuid now s0 w0 Ei0
                   |selected rest outcome uuid now cause pre s0 w0 Ei0
                   |selected rest outcome uuid now text fn s0 w0 Ei0];
      simpl; try exact HP.
    + now rewrite Eu in HP.
    + rewrite Eu in HP. rewrite HP. now exists file.
    + destruct (isUploading s0).
      * destruct HP as (file & _ & Hf). congruence.
      * congruence.
    + rewrite persisted_inflight; simpl. destruct (isUploading s0).
      * destruct HP as (file & _ & Hf). congruence.
      * congruence.
Qed.

(** X4 — What a loaded page shows.  A page that has loaded never goes
    back to the loading skeleton: whatever events follow, it shows the
    empty state when the registry is empty and otherwise the table of the
    registry, row by row in the order of the registry. *)
Theorem loaded_page_lists_registry evs s w :
  isLoading s = false ->
  exists s' w',
    run evs s w = (Normal tt, s', w')
    /\ renderContent s' =
         match files s' with
         | [] => EmptyState
         | _ :: _ => FilesTable (files s')
         end.
Proof.
  intros El.
  destruct (run_invariant (fun s _ => isLoading s = false)) with evs s w
    as (s' & w' & E & El').
  - intros ev s0 w0 s1 w1 HP Ht. destruct Ht; simpl; auto.
  - exact El.
  - exists s', w'. split; [exact E|].
    unfold renderContent. rewrite El'. now destruct (files s').
Qed.

(** X5 — No record without content.  If every record of the registry has
    content, so has every record after any run of events: an upload never
    stores a record whose content is empty. *)
Theorem content_stays_nonempty evs s w :
  Forall (fun r => content r <> "") (files s) ->
  exists s' w',
    run evs s w = (Normal tt, s', w')
    /\ Forall (fun r => content r <> "") (files s').
Proof.
  apply (run_invariant (fun s _ => Forall (fun r => content r <> "") (files s))).
  intros ev s0 w0 s1 w1 HP Ht. destruct Ht; simpl; auto.
  constructor; [|exact HP]. simpl.
  match goal with Hc : conversion _ _ _ |- _ => now inversion Hc end.
Qed.


(** X6 — The registry only grows.  No event removes or changes a record:
    after any run, the registry is the old registry with new records in
    front of it, at most one for each request that settled. *)
Theorem registry_only_grows evs s w :
  exists added s' w',
    run evs s w = (Normal tt, s', w')
    /\ files s' = added ++ files s
    /\ List.length added <= List.length (generated evs).
Proof.
  revert s w. induction evs as [|ev evs IH]; intros s w.
  - exists [], s, w. now rewrite run_nil.
  - destruct (dispatch_transition ev s w) as (s1 & w1 & E1 & Ht).
    rewrite (run_cons _ _ _ _ _ _ E1).
    destruct (IH s1 w1) as (added & s' & w' & E & Hf & Hlen).
    destruct Ht; simpl in *;
      try (exists added, s', w'; repeat split; [assumption..|lia]).
    eexists (added ++ [_]), s', w'. rewrite <- app_assoc. simpl.
    repeat split; [eassumption..|]. rewrite length_app. simpl. lia.
Qed.

Lemma no_toast_in t msg :
  toasts t = [] -> Forall (fun e => e <> ToastError msg) t.
Proof.
  induction t as [|e t IH]; intros Ht; constructor.
  - intros ->. discriminate Ht.
  - apply IH. unfold toasts in *. simpl in Ht.
    destruct (is_toast e); [discriminate|assumption].
Qed.

(** X7 — The prompt that never shows.  [handleUpload] answers a call with
    no file selected by the toast "Please select a file to upload"; the
    button that calls it is disabled whenever no file is selected, so no
    run of events ever shows that toast. *)
Theorem select_prompt_never_shows evs s w :
  exists t s' w',
    run evs s w = (Normal tt, s', w')
    /\ trace w' = trace w ++ t
    /\ Forall (fun e => e <> ToastError "Please select a file to upload") t.
Proof.
  revert s w. induction evs as [|ev evs IH]; intros s w.
  - exists [], s, w. rewrite run_nil, app_nil_r. repeat split. constructor.
  - destruct (dispatch_transition ev s w) as (s1 & w1 & E1 & Ht).
    rewrite (run_cons _ _ _ _ _ _ E1).
    destruct (IH s1 w1) as (t & s' & w' & E & Htr & Hall).
    assert (exists t1,
              trace w1 = trace w ++ t1
              /\ Forall
                   (fun e => e <> ToastError "Please select a file to upload")
                   t1) as (t1 & Ht1 & Hall1).
    { destruct Ht; simpl;
        try (exists []; rewrite app_nil_r; split; [reflexivity|constructor]).
      - eexists [_]. split; [reflexivity|]. repeat constructor. discriminate.
      - eexists. split; [reflexivity|]. apply Forall_app. split.
        + now apply no_toast_in.
        + repeat constructor; discriminate.
      - match goal with |- context [persisted ?s1 ?w1] =>
          destruct (persisted_trace s1 w1) as (t0 & -> & Ht0)
        end.
        simpl. rewrite <- app_assoc. eexists. split; [reflexivity|].
        apply Forall_app. split.
        + repeat constructor; discriminate.
        + eapply Forall_impl; [exact Ht0|].
          intros e He ->. discriminate He. }
    exists (t1 ++ t), s', w'. rewrite app_assoc, <- Ht1.
    repeat split; try assumption. apply Forall_app. now split.
Qed.

(** X8 — Every request is answered once.  Along any run, each request the
    page sends is either still in flight or has been answered by exactly
    one toast, and the page shows no other toast: requests sent equal
    toasts shown plus requests in flight, counted from where the run
    starts. *)
Theorem requests_are_answered_once evs s w :
  exists s' w',
    run evs s w = (Normal tt, s', w')
    /\ List.length (requests (trace w')) + List.length (toasts (trace w))
       + List.length (inflight w)
       = List.length (requests (trace w)) + List.length (toasts (trace w'))
         + List.length (inflight w').
Proof.
  apply (run_invariant
           (fun _ w' =>
              List.length (requests (trace w'))
              + List.length (toasts (trace w)) + List.length (inflight w)
              = List.length (requests (trace w))
                + List.length (toasts (trace w'))
                + List.length (inflight w'))); [|reflexivity].
  intros ev s0 w0 s1 w1 HP Ht.
  destruct Ht as [| | | | |selected rest outcome uuid now cause pre s0 w0 Ei
                   Hfail Hpt Hpw Hpr
                 |selected rest outcome uuid now text fn s0 w0 Ei Hok];
    simpl; try exact HP.
  - rewrite requests_app, toasts_app, !length_app. simpl. lia.
  - rewrite !requests_app, !toasts_app, Hpt, Hpr, !length_app.
    rewrite Ei in HP. simpl in *. lia.
  - rewrite persisted_requests, persisted_toasts, persisted_inflight. simpl.
    rewrite requests_app, toasts_app, !length_app.
    rewrite Ei in HP. simpl in *. lia.
Qed.


(** X9 — An accepted upload is announced.  When the request in flight
    settles as an accepted conversion, the user gets exactly one new toast,
    a success toast that names the filename of the new record, the file
    input is reset, and the upload button is disabled again. *)
Theorem accepted_upload_is_announced
    selected rest outcome text fn uuid now s w :
  inflight w = selected :: rest ->
  conversion outcome text fn ->
  exists r s' w',
    dispatch (FetchSettled outcome uuid now) s w = (Normal tt, s', w')
    /\ files s' = r :: files s
    /\ toasts (trace w') =
         toasts (trace w)
         ++ [ToastSuccess
               ("File processed successfully: " ++ filename r
                ++ " has been converted to markdown")]
    /\ (exists t1 t2,
          trace w' = trace w ++ t1 ++ ResetInput "file-upload" :: t2)
    /\ button_disabled s' = true.
Proof.
  intros Ei Hok.
  rewrite (dispatch_settled_stored selected rest outcome uuid now text fn
             s w Ei Hok).
  do 3 eexists. split; [reflexivity|]. split; [reflexivity|].
  split; [|split; [|reflexivity]].
  - rewrite persisted_toasts. simpl. now rewrite toasts_app.
  - match goal with |- context [persisted ?s1 ?w1] =>
      destruct (persisted_trace s1 w1) as (t0 & -> & _)
    end.
    unfold success_trace; simpl.
    eexists [_; _; _; _], t0. now rewrite <- app_assoc.
Qed.

(** X10 — A failed upload can be retried.  After a failure the selection
    is still there and the button is enabled again: the next click sends
    the same file once more, and the registry is as it was. *)
Theorem failed_upload_can_be_retried file outcome uuid now cause s w :
  selectedFile s = Some file ->
  inflight w = [file] ->
  upload_failure outcome cause ->
  exists s' w',
    run [FetchSettled outcome uuid now; ClickUpload] s w = (Normal tt, s', w')
    /\ files s' = files s
    /\ selectedFile s' = Some file
    /\ isUploading s' = true
    /\ inflight w' = [file]
    /\ requests (trace w') =
         requests (trace w)
         ++ [FetchPost "/api/v1/file-processors/process-upload" "file" file].
Proof.
  intros Es Ei Hfail.
  destruct (dispatch_settled_failed file [] outcome uuid now cause s w
              Ei Hfail) as (pre & E1 & _ & _ & Hr).
  rewrite (run_cons _ _ _ _ _ _ E1).
  erewrite run_cons
    by (apply (dispatch_click_enabled file); [exact Es|reflexivity]).
  rewrite run_nil. do 2 eexists. split; [reflexivity|]. simpl.
  rewrite !requests_app, Hr. simpl. rewrite app_nil_r.
  repeat split; assumption.
Qed.

(** X11 — A stored upload is not sent twice.  After an accepted
    conversion the selection is cleared, so a further click on the upload
    button does nothing: it takes a new selection to upload again. *)
Theorem stored_upload_is_not_resent
    selected rest outcome text fn uuid now s w :
  inflight w = selected :: rest ->
  conversion outcome text fn ->
  run [FetchSettled outcome uuid now; ClickUpload] s w
  = dispatch (FetchSettled outcome uuid now) s w.
Proof.
  intros Ei Hok.
  pose proof (dispatch_settled_stored selected rest outcome uuid now text fn
                s w Ei Hok) as E1.
  rewrite (run_cons _ _ _ _ _ _ E1), E1.
  erewrite run_cons by (now apply dispatch_click_disabled).
  apply run_nil.
Qed.

(** X12 — A reload restores the registry.  Let the slot hold the
    serialization of a registry, as a session whose writes were accepted
    leaves it, and let the runtime read that text back as the registry it
    was written from.  A page mounted on that storage shows that same
    registry, leaves the storage as it is, whether the storage accepts the
    rewrite or refuses it, and shows no toast. *)
Theorem reload_restores_registry l w :
  slot w = Some (JSON_stringify l) ->
  JSON_parse (JSON_stringify l) = Normal l ->
  JSON_stringify l <> "" ->
  exists t,
    mount initial_page w =
      (Normal tt,
       {| files := l; isUploading := false; selectedFile := None;
          isLoading := false |},
       {| localStorage := localStorage w; inflight := inflight w;
          trace := trace w ++ t |})
    /\ toasts t = [].
Proof.
  intros Hs Hround Hne.
  destruct (mount_total w) as (l0 & t & Em & _ & Ht & _ & El).
  destruct (load_effect_total initial_page w)
    as (l' & t' & El' & _ & _ & _ & Hl).
  rewrite El in El'. inversion El'; subst l'.
  apply truthy_true in Hne. rewrite Hs, Hne, Hround in Hl. subst l0.
  rewrite Em. unfold saved. simpl.
  destruct (setItem_outcome _ _ _); rewrite <- app_assoc.
  - rewrite (insert_id (localStorage w) STORAGE_KEY _ Hs).
    eexists. split; [reflexivity|]. now rewrite toasts_app, Ht.
  - eexists. split; [reflexivity|]. now rewrite toasts_app, Ht.
Qed.

(** X13 — From the upload to the detail view.  Let an accepted conversion
    settle on a loaded page, let the storage accept the write of the new
    registry, and let the runtime read the serialization of the new
    registry back as it was written.  The detail view entered with
    the id of the new record shows that record: its filename, its
    timestamp and, in both panes, the content of the response. *)
Theorem uploaded_record_opens_in_detail
    selected rest outcome text fn uuid now s w s' w' :
  isLoading s = false ->
  inflight w = selected :: rest ->
  conversion outcome text fn ->
  dispatch (FetchSettled outcome uuid now) s w = (Normal tt, s', w') ->
  setItem_outcome (localStorage w) STORAGE_KEY (JSON_stringify (files s'))
  = Normal tt ->
  JSON_parse (JSON_stringify (files s')) = Normal (files s') ->
  JSON_stringify (files s') <> "" ->
  exists r,
    files s' = r :: files s
    /\ id r = uuid
    /\ Detail.render (Detail.enter uuid w').1.2 =
         Detail.FileView (filename r) now
           (Detail.Shown text) (Detail.Shown text).
Proof.
  intros El Ei Hok E Hacc Hround Hne.
  rewrite (dispatch_settled_stored selected rest outcome uuid now text fn
             s w Ei Hok) in E.
  inversion E; subst s' w'; clear E.
  simpl in Hacc, Hround, Hne. apply truthy_true in Hne.
  eexists. split; [reflexivity|]. split; [reflexivity|].
  destruct (enter_total uuid
              (persisted (stored (new_record selected text fn uuid now) s)
                 {| localStorage := localStorage w; inflight := rest;
                    trace :=
                      trace w
                      ++ success_trace
                           (new_record selected text fn uuid now) |}))
    as (found & t & -> & _ & Hfound).
  assert (found = Some (new_record selected text fn uuid now)) as ->.
  { rewrite Hfound. unfold slot, persisted at 1. simpl. rewrite El.
    rewrite saved_accepted by exact Hacc. simpl.
    rewrite lookup_insert_eq, Hne, Hround. simpl.
    now rewrite String.eqb_refl. }
  unfold Detail.render, Detail.pane; simpl.
  inversion Hok as [response c fn' Eok Ejson Hc]; subst.
  apply truthy_true in Hc. now rewrite Hc.
Qed.


(** X17 — No write without a new record.  On a loaded page the storage
    is written only when a record enters the registry: along any run, the
    writes the trace gains are at most as many as the records the registry
    gains, so selections, clicks and failed uploads never write; and they
    are exactly as many when the storage accepts every write to the
    slot. *)
Theorem one_write_per_record evs s w :
  isLoading s = false ->
  exists s' w',
    run evs s w = (Normal tt, s', w')
    /\ List.length (writes (trace w')) + List.length (files s)
       <= List.length (writes (trace w)) + List.length (files s')
    /\ ((forall m v, setItem_outcome m STORAGE_KEY v = Normal tt) ->
        List.length (writes (trace w')) + List.length (files s)
        = List.length (writes (trace w)) + List.length (files s')).
Proof.
  intros El.
  destruct (run_invariant
              (fun s' w' =>
                 isLoading s' = false
                 /\ List.length (writes (trace w')) + List.length (files s)
                    <= List.length (writes (trace w))
                       + List.length (files s')
                 /\ ((forall m v,
                        setItem_outcome m STORAGE_KEY v = Normal tt) ->
                     List.length (writes (trace w'))
                     + List.length (files s)
                     = List.length (writes (trace w))
                       + List.length (files s')))) with evs s w
    as (s' & w' & E & _ & Hle & Heq).
  - intros ev s0 w0 s1 w1 (El0 & Hle & Heq) Ht.
    destruct Ht as [| | | | |selected rest outcome uuid now cause pre s0 w0 Ei
                     Hfail Hpt Hpw Hpr
                   |selected rest outcome uuid now text fn s0 w0 Ei Hok];
      simpl; try (split; [assumption|split; assumption]).
    + split; [assumption|]. rewrite writes_app; simpl.
      rewrite app_nil_r. now split.
    + split; [assumption|]. rewrite !writes_app, Hpw; simpl.
      rewrite app_nil_r. now split.
    + split; [assumption|]. unfold persisted; simpl. rewrite El0. split.
      * destruct (saved_writes
                    (new_record selected text fn uuid now :: files s0)
                    {| localStorage := localStorage w0; inflight := rest;
                       trace :=
                         trace w0
                         ++ success_trace
                              (new_record selected text fn uuid now) |})
          as [-> | ->]; simpl;
          rewrite ?length_app, !writes_app; simpl;
          rewrite ?length_app; simpl; lia.
      * intros Hacc. specialize (Heq Hacc).
        rewrite saved_accepted by apply Hacc. simpl.
        rewrite !writes_app, !length_app; simpl. lia.
  - split; [exact El|]. split; [lia|]. intros _. lia.
  - exists s', w'. now repeat split.
Qed.

End SessionProperties.

(** ** More of the detail page and the layout *)

Section ViewProperties.
Context `{JSON}.

(** The effect of the detail page from any state: it never throws, it only
    writes to the console, and it replaces the record it holds only by a
    record it finds. *)
Lemma detail_effect_total fileId s w :
  exists found t,
    Detail.load_effect fileId s w =
      (Normal tt,
       {| Detail.file := found; Detail.isLoading := false |},
       {| localStorage := localStorage w; inflight := inflight w;
          trace := trace w ++ t |})
    /\ Forall is_console t
    /\ (found = Detail.file s
        \/ exists text records f,
             slot w = Some text /\ JSON_parse text = Normal records
             /\ In f records /\ id f = fileId /\ found = Some f).
Proof.
  unfold Detail.load_effect, try_catch_finally, bind, localStorage_getItem,
    lift, slot.
  destruct w as [st fl tr]; simpl.
  destruct (st !! STORAGE_KEY) as [text|]; simpl.
  - destruct (truthy text); simpl.
    + destruct (JSON_parse text) as [records|reason] eqn:Ep; simpl.
      * destruct (List.find _ records) as [f|] eqn:Ef; simpl;
          eexists _, _; rewrite <- !app_assoc; simpl;
          (split; [reflexivity|split; [repeat constructor|]]).
        -- right. exists text, records, f.
           apply List.find_some in Ef as [Hin Hid].
           apply String.eqb_eq in Hid. now repeat split.
        -- now left.
      * eexists _, _; rewrite <- !app_assoc; simpl.
        split; [reflexivity|split; [repeat constructor|now left]].
    + eexists _, _. split; [reflexivity|split; [repeat constructor|now left]].
  - eexists _, _. split; [reflexivity|split; [repeat constructor|now left]].
Qed.

(** X14 — The detail view only reads.  Entering the detail view raises
    nothing and does nothing the user or the service could notice: the
    trace gains console lines only, so no toast, no request and no write,
    and the storage and the requests in flight are as they were; and the
    view never stays on the loading skeleton. *)
Theorem detail_entry_only_reads fileId w :
  exists t,
    (Detail.enter fileId w).1.1 = Normal tt
    /\ trace (Detail.enter fileId w).2 = trace w ++ t
    /\ Forall is_console t
    /\ localStorage (Detail.enter fileId w).2 = localStorage w
    /\ inflight (Detail.enter fileId w).2 = inflight w
    /\ Detail.render (Detail.enter fileId w).1.2 <> Detail.Skeleton.
Proof.
  unfold Detail.enter.
  destruct (detail_effect_total fileId Detail.initial w)
    as (found & t & -> & Ht & _).
  exists t. simpl. repeat split; try assumption.
  unfold Detail.render; simpl. now destruct found.
Qed.

(** X15 — The effect never clears the record.  The effect of the detail
    page depends on [fileId], so it runs again when the id changes under a
    mounted view; it sets the record only when it finds one.  Run on a view
    that holds a record, with an id that no stored record has, it leaves
    that record in place, and the view keeps showing it. *)
Theorem detail_effect_keeps_old_record fileId old loading w :
  (forall text records,
     slot w = Some text -> JSON_parse text = Normal records ->
     forall g, In g records -> id g <> fileId) ->
  (Detail.load_effect fileId
     {| Detail.file := Some old; Detail.isLoading := loading |} w).1.2
  = {| Detail.file := Some old; Detail.isLoading := false |}
  /\ Detail.render
       (Detail.load_effect fileId
          {| Detail.file := Some old; Detail.isLoading := loading |} w).1.2
     = Detail.FileView (filename old) (processedAt old)
         (Detail.pane (content old)) (Detail.pane (content old)).
Proof.
  intros Hnone.
  destruct (detail_effect_total fileId
              {| Detail.file := Some old; Detail.isLoading := loading |} w)
    as (found & t & -> & _ & Hfound). simpl.
  destruct Hfound as [->|(text & records & f & Es & Ep & Hin & Hid & _)].
  - split; reflexivity.
  - exfalso. exact (Hnone text records Es Ep f Hin Hid).
Qed.

(** X16 — The breadcrumb of the detail path.  The path that a row of the
    list pushes for a record with a non-empty id is the base detail path of
    that id: there the layout shows the breadcrumb, the link to the list
    and then the details of that id.  The layout shows a breadcrumb on no
    other kind of path: only when the route has a non-empty id and the path
    is exactly the detail path of that id. *)
Theorem breadcrumb_on_detail_path :
  (forall f,
     id f <> "" ->
     Layout.FilesLayout (Some (id f)) (row_target f) =
       Some [{| Layout.label := "Files";
                Layout.href := Some "/logs/files" |};
             {| Layout.label := ("Details (" ++ id f ++ ")")%string;
                Layout.href := None |}])
  /\ (forall fileId pathname segments,
        Layout.FilesLayout fileId pathname = Some segments ->
        exists i,
          fileId = Some i /\ i <> ""
          /\ pathname = ("/logs/files/" ++ i)%string
          /\ List.length segments = 2).
Proof.
  split.
  - intros f Hne. apply truthy_true in Hne.
    unfold Layout.FilesLayout, Layout.isBaseDetailPage,
      Layout.breadcrumbSegments, row_target.
    now rewrite Hne, String.eqb_refl.
  - intros fileId pathname segments.
    unfold Layout.FilesLayout, Layout.isBaseDetailPage,
      Layout.breadcrumbSegments.
    destruct fileId as [i|]; [|discriminate].
    destruct (truthy i) eqn:Et; [|discriminate]. simpl.
    destruct (String.eqb_spec pathname ("/logs/files/" ++ i)%string);
      [|discriminate].
    intros E. inversion E; subst. exists i.
    apply truthy_true in Et. now repeat split.
Qed.

End ViewProperties.

(** ** Properties of the untyped mount *)

Section UntypedProperties.
Context `{Untyped.Engine}.
Context `{Storage}.

(** The load of a slot that parses: the value is stored as it is. *)
Lemma untyped_load_parsed text v w :
  slot w = Some text -> text <> "" -> Untyped.parse text = Normal v ->
  Untyped.load_effect Untyped.initial w =
    (Normal tt,
     {| Untyped.files := v; Untyped.isUploading := false;
        Untyped.selectedFile := None; Untyped.isLoading := false |}, w).
Proof.
  intros Es Hne Ep. apply truthy_true in Hne.
  unfold Untyped.load_effect, try_catch_finally, bind, localStorage_getItem,
    lift, slot in *.
  simpl. rewrite Es, Hne, Ep. reflexivity.
Qed.

Lemma render_rows_throws items item reason :
  In item items -> Untyped.render_row item = Throw reason ->
  exists reason', Untyped.render_rows items = Throw reason'.
Proof.
  induction items as [|x items IH]; intros Hin Hr; [destruct Hin|].
  simpl. destruct (Untyped.render_row x) as [[]|r] eqn:Ex; [|eauto].
  destruct Hin as [->|Hin]; [congruence|]. now apply IH.
Qed.

Lemma render_rows_normal items :
  (forall item, In item items -> Untyped.render_row item = Normal tt) ->
  Untyped.render_rows items = Normal tt.
Proof.
  induction items as [|x items IH]; intros Hall; [reflexivity|].
  simpl. rewrite (Hall x) by now left.
  apply IH. intros item Hin. apply Hall. now right.
Qed.

(** The render of a loaded page throws on a foreign registry. *)
Lemma foreign_render_throws v up sel :
  Untyped.foreign v ->
  exists reason,
    Untyped.renderContent
      {| Untyped.files := v; Untyped.isUploading := up;
         Untyped.selectedFile := sel; Untyped.isLoading := false |}
    = Throw reason.
Proof.
  intros Hf. unfold Untyped.renderContent; simpl.
  destruct Hf as [|b|zero digits|s Hs|fields Hlen|items item reason Hin Hr];
    simpl; eauto.
  - apply String.eqb_neq in Hs. rewrite Hs. simpl. eauto.
  - destruct (Untyped.own fields "length") as [[|b|[|] digits|s|l|fs]|] eqn:E;
      simpl; eauto.
    exfalso. exact (Hlen digits eq_refl).
  - destruct items as [|x items]; [destruct Hin|].
    destruct (render_rows_throws (x :: items) item reason Hin Hr) as [r ->].
    eauto.
Qed.

(** X18 — A slot of another shape takes the page down.  Let the slot hold
    valid JSON that is not a registry the page can list: [null], a boolean,
    a number, a non-empty string, an object whose [length] is not 0, or an
    array with an element whose row does not render.  The load stores that
    value, the render of the loaded page throws, and the mount ends in that
    exception with the world exactly as it was: the save effect never runs,
    the page writes nothing, shows no toast, and the slot keeps its
    text. *)
Theorem foreign_slot_takes_page_down text v w :
  slot w = Some text -> text <> "" -> Untyped.parse text = Normal v ->
  Untyped.foreign v ->
  exists reason,
    Untyped.mount Untyped.initial w =
      (Throw reason,
       {| Untyped.files := v; Untyped.isUploading := false;
          Untyped.selectedFile := None; Untyped.isLoading := false |}, w).
Proof.
  intros Es Hne Ep Hf.
  destruct (foreign_render_throws v false None Hf) as [reason Hr].
  exists reason. unfold Untyped.mount, bind at 1 2. simpl.
  rewrite (untyped_load_parsed text v w Es Hne Ep).
  unfold bind, Untyped.render; simpl. now rewrite Hr.
Qed.

(** X19 — A slot the page can list is written back as it is.  Let the slot
    hold a JSON array whose rows all render (an array of records is one).
    The mount completes with that array as the registry and runs the save
    effect on it.  When the storage accepts the write, the slot holds the
    serialization of that very array and the trace has gained that one
    write; when it refuses, the storage is as it was and the trace gains
    no write. *)
Theorem listable_slot_is_written_back text items w :
  slot w = Some text -> text <> "" ->
  Untyped.parse text = Normal (Untyped.Array items) ->
  (forall item, In item items -> Untyped.render_row item = Normal tt) ->
  exists w',
    Untyped.mount Untyped.initial w =
      (Normal tt,
       {| Untyped.files := Untyped.Array items;
          Untyped.isUploading := false; Untyped.selectedFile := None;
          Untyped.isLoading := false |}, w')
    /\ (setItem_outcome (localStorage w) STORAGE_KEY
          (Untyped.stringify (Untyped.Array items)) = Normal tt ->
        slot w' = Some (Untyped.stringify (Untyped.Array items))
        /\ writes (trace w') =
             writes (trace w)
             ++ [StorageWrite STORAGE_KEY
                   (Untyped.stringify (Untyped.Array items))])
    /\ (forall reason,
          setItem_outcome (localStorage w) STORAGE_KEY
            (Untyped.stringify (Untyped.Array items)) = Throw reason ->
          localStorage w' = localStorage w
          /\ writes (trace w') = writes (trace w)).
Proof.
  intros Es Hne Ep Hrows.
  unfold Untyped.mount, bind at 1 2. simpl.
  rewrite (untyped_load_parsed text _ w Es Hne Ep).
  unfold bind, Untyped.render, Untyped.renderContent, Untyped.map_rows; simpl.
  rewrite (render_rows_normal items Hrows).
  assert (Untyped.save_effect
            {| Untyped.files := Untyped.Array items;
               Untyped.isUploading := false; Untyped.selectedFile := None;
               Untyped.isLoading := false |}
            {| Untyped.files := Untyped.Array items;
               Untyped.isUploading := false; Untyped.selectedFile := None;
               Untyped.isLoading := false |} w
          = (Normal tt,
             {| Untyped.files := Untyped.Array items;
                Untyped.isUploading := false; Untyped.selectedFile := None;
                Untyped.isLoading := false |},
             match setItem_outcome (localStorage w) STORAGE_KEY
                     (Untyped.stringify (Untyped.Array items)) with
             | Normal _ =>
                 {| localStorage :=
                      <[STORAGE_KEY :=
                          Untyped.stringify (Untyped.Array items)]>
                        (localStorage w);
                    inflight := inflight w;
                    trace :=
                      trace w
                      ++ [StorageWrite STORAGE_KEY
                            (Untyped.stringify (Untyped.Array items))] |}
             | Throw _ =>
                 {| localStorage := localStorage w;
                    inflight := inflight w;
                    trace :=
                      trace w
                      ++ [Console ErrorLevel
                            "Error saving files to localStorage:"] |}
             end)) as Esave.
  { unfold Untyped.save_effect, try_catch, try_catch_finally,
      localStorage_setItem; simpl.
    now destruct (setItem_outcome _ _ _). }
  destruct items as [|x items]; simpl; rewrite Esave;
    (eexists; split; [reflexivity|]; split;
     [intros Hacc; rewrite Hacc; simpl; split;
      [apply lookup_insert_eq|now rewrite writes_app]
     |intros reason Href; rewrite Href; simpl; split;
      [reflexivity|rewrite writes_app; simpl; apply app_nil_r]]).
Qed.

End UntypedProperties.

(** ** The properties at work on the sample runtime *)

#[local] Existing Instance Sample.runtime.
#[local] Existing Instance Sample.unlimited.

Lemma persist_waits_for_load_witness :
  isLoading initial_page = true
  /\ save_effect initial_page initial_page (Sample.world (Some "garbage"))
     = (Normal tt, initial_page, Sample.world (Some "garbage"))
  /\ exists s' w',
       run [ChangeFile (Some {| name := "a.pdf" |}); ClickUpload;
            FetchSettled Sample.success "id-2" "2025-01-02T00:00:00.000Z"]
         initial_page (Sample.world (Some "garbage"))
       = (Normal tt, s', w')
       /\ isLoading s' = true
       /\ localStorage w' = localStorage (Sample.world (Some "garbage"))
       /\ writes (trace w') = writes (trace (Sample.world (Some "garbage"))).
Proof.
  split; [reflexivity|]. split.
  - apply (proj1 persist_waits_for_load). reflexivity.
  - apply (proj2 (proj2 persist_waits_for_load)). reflexivity.
Defined.

Lemma content_is_required_witness :
  failed_upload "API returned no content" initial_page (Sample.world None)
    (handleUpload_resume {| name := "a.pdf" |}
       (Fulfilled {| ok := true; statusText := "OK";
                     json := Normal {| r_content := Some "";
                                       r_filename := Some "a.pdf" |} |})
       "id-2" "2025-01-02T00:00:00.000Z" initial_page (Sample.world None)).
Proof.
  apply (content_is_required {| name := "a.pdf" |}
           {| ok := true; statusText := "OK";
              json := Normal {| r_content := Some "";
                                r_filename := Some "a.pdf" |} |}).
  right. eexists. split; [reflexivity|]. right. reflexivity.
Defined.

Lemma uploads_prepend_witness :
  exists added s' w',
    run (flat_map upload_events
           [{| u_file := {| name := "a.pdf" |}; u_outcome := Sample.success;
               u_uuid := "id-2"; u_now := "2025-01-02T00:00:00.000Z" |};
            {| u_file := {| name := "b.pdf" |}; u_outcome := Sample.success;
               u_uuid := "id-3"; u_now := "2025-01-03T00:00:00.000Z" |}])
      {| files := [Sample.report]; isUploading := false;
         selectedFile := None; isLoading := false |}
      (Sample.world None)
    = (Normal tt, s', w')
    /\ files s' = rev added ++ [Sample.report]
    /\ map id added = ["id-2"; "id-3"]
    /\ map processedAt added =
         ["2025-01-02T00:00:00.000Z"; "2025-01-03T00:00:00.000Z"]
    /\ map processedAt (files s') =
         ["2025-01-03T00:00:00.000Z"; "2025-01-02T00:00:00.000Z";
          "2025-01-01T00:00:00.000Z"].
Proof.
  apply (proj2 uploads_prepend
           [{| u_file := {| name := "a.pdf" |}; u_outcome := Sample.success;
               u_uuid := "id-2"; u_now := "2025-01-02T00:00:00.000Z" |};
            {| u_file := {| name := "b.pdf" |}; u_outcome := Sample.success;
               u_uuid := "id-3"; u_now := "2025-01-03T00:00:00.000Z" |}]
           {| files := [Sample.report]; isUploading := false;
              selectedFile := None; isLoading := false |}
           (Sample.world None)).
  - repeat constructor;
      (exists "# Report", (Some "report.pdf");
       constructor; [reflexivity|reflexivity|discriminate]).
  - reflexivity.
  - reflexivity.
Defined.

Lemma second_upload_is_rejected_witness :
  dispatch ClickUpload
    {| files := []; isUploading := true;
       selectedFile := Some {| name := "a.pdf" |}; isLoading := false |}
    {| localStorage := ∅; inflight := [{| name := "a.pdf" |}];
       trace := [] |}
  = (Normal tt,
     {| files := []; isUploading := true;
        selectedFile := Some {| name := "a.pdf" |}; isLoading := false |},
     {| localStorage := ∅; inflight := [{| name := "a.pdf" |}];
        trace := [] |})
  /\ exists s' w',
       (mount ;;
        run [ChangeFile (Some {| name := "a.pdf" |}); ClickUpload;
             ClickUpload; ClickUpload])
         initial_page (Sample.world None)
       = (Normal tt, s', w')
       /\ List.length (inflight w') <= 1
       /\ (isUploading s' = true <-> List.length (inflight w') = 1).
Proof.
  split.
  - apply (proj1 second_upload_is_rejected). reflexivity.
  - apply (proj2 second_upload_is_rejected). reflexivity.
Defined.

Lemma load_recovers_silently_witness :
  exists t,
    load_effect initial_page (Sample.world (Some "garbage")) =
      (Normal tt,
       {| files := []; isUploading := false; selectedFile := None;
          isLoading := false |},
       {| localStorage := localStorage (Sample.world (Some "garbage"));
          inflight := []; trace := [] ++ t |})
    /\ toasts t = [].
Proof.
  apply (load_recovers_silently (Sample.world (Some "garbage"))).
  right. right. exists "garbage", (ErrorObj "Unexpected token in JSON").
  split; reflexivity.
Defined.

Lemma failure_leaves_page_unchanged_witness :
  let s := {| files := [Sample.report]; isUploading := true;
              selectedFile := Some {| name := "a.pdf" |};
              isLoading := false |} in
  let w := {| localStorage := ∅; inflight := [{| name := "a.pdf" |}];
              trace := [] |} in
  let ev := FetchSettled (Rejected (ErrorObj "Failed to fetch")) "id-2"
              "2025-01-02T00:00:00.000Z" in
  failed_upload "Failed to fetch" s w (dispatch ev s w)
  /\ localStorage (dispatch ev s w).2 = localStorage w.
Proof.
  intros s w ev.
  apply (failure_leaves_page_unchanged {| name := "a.pdf" |} []
           (Rejected (ErrorObj "Failed to fetch"))).
  - reflexivity.
  - apply (network_failure (ErrorObj "Failed to fetch")).
Defined.

Lemma accepted_upload_record_witness :
  exists r s' w',
    dispatch
      (FetchSettled Sample.success "id-2" "2025-01-02T00:00:00.000Z")
      {| files := [Sample.report]; isUploading := true;
         selectedFile := Some {| name := "a.pdf" |}; isLoading := false |}
      {| localStorage := ∅; inflight := [{| name := "a.pdf" |}];
         trace := [] |}
    = (Normal tt, s', w')
    /\ files s' = r :: [Sample.report]
    /\ selectedFile s' = None
    /\ id r = "id-2"
    /\ content r = "# Report"
    /\ processedAt r = "2025-01-02T00:00:00.000Z"
    /\ (forall f, Some "report.pdf" = Some f -> f <> "" -> filename r = f)
    /\ (Some "report.pdf" = None \/ Some "report.pdf" = Some "" ->
        filename r = "a.pdf")
    /\ (false = false ->
        setItem_outcome ∅ STORAGE_KEY (JSON_stringify (r :: [Sample.report]))
        = Normal tt ->
        slot w' = Some (JSON_stringify (r :: [Sample.report]))).
Proof.
  apply (accepted_upload_record {| name := "a.pdf" |} [] Sample.success
           "# Report" (Some "report.pdf")).
  - reflexivity.
  - constructor; [reflexivity|reflexivity|discriminate].
Defined.

Lemma ids_stay_distinct_witness :
  exists s' w',
    run [ChangeFile (Some {| name := "a.pdf" |}); ClickUpload;
         FetchSettled Sample.success "id-2" "2025-01-02T00:00:00.000Z"]
      {| files := [Sample.report; Sample.notes]; isUploading := false;
         selectedFile := None; isLoading := false |}
      (Sample.world None)
    = (Normal tt, s', w')
    /\ NoDup (map id (files s')).
Proof.
  apply ids_stay_distinct.
  apply (bool_decide_unpack _). vm_compute. exact I.
Defined.



Lemma detail_view_resolves_witness :
  let w :=
    Sample.world (Some (Sample.stringify [Sample.report; Sample.notes])) in
  Detail.file (Detail.enter "id-0" w).1.2 = Some Sample.notes
  /\ Detail.render (Detail.enter "id-0" w).1.2 =
       Detail.FileView "notes.docx" "2024-12-31T00:00:00.000Z"
         Detail.NoContentAvailable Detail.NoContentAvailable
  /\ Detail.render (Detail.enter "id-9" w).1.2 = Detail.FileNotFound.
Proof.
  intros w.
  destruct (detail_view_resolves "id-0" w) as (_ & _ & Hfound & _).
  destruct (Hfound (Sample.stringify [Sample.report; Sample.notes])
              [Sample.report] Sample.notes [])
    as (Hfile & Hview & _).
  - reflexivity.
  - discriminate.
  - reflexivity.
  - reflexivity.
  - intros g [<-|[]]. discriminate.
  - split; [exact Hfile|]. split; [exact Hview|].
    apply (detail_view_resolves "id-9" w).
    intros text records Es Ep g Hg.
    vm_compute in Es. injection Es as <-.
    vm_compute in Ep. injection Ep as <-.
    destruct Hg as [<-|[<-|[]]]; discriminate.
Defined.

(** C7, as the specification words it, fails on a response whose filename
    is there but empty: the record takes the name of the selected file,
    where the specification gives it the empty filename of the response. *)
Lemma empty_filename_counterexample :
  let selected := {| name := "report.pdf" |} in
  let outcome :=
    Fulfilled {| ok := true; statusText := "OK";
                 json := Normal {| r_content := Some "# Report";
                                   r_filename := Some "" |} |} in
  let s := {| files := []; isUploading := true;
              selectedFile := Some selected; isLoading := false |} in
  let w := {| localStorage := ∅; inflight := []; trace := [] |} in
  conversion outcome "# Report" (Some "")
  /\ files (handleUpload_resume selected outcome "id-1"
             "2025-01-01T00:00:00.000Z" s w).1.2
     = [{| id := "id-1"; filename := "report.pdf"; content := "# Report";
           processedAt := "2025-01-01T00:00:00.000Z" |}]
  /\ spec_filename (Some "") selected = ""
  /\ map filename
       (files (handleUpload_resume selected outcome "id-1"
                 "2025-01-01T00:00:00.000Z" s w).1.2)
     <> [spec_filename (Some "") selected].
Proof.
  intros selected outcome s w. split.
  - constructor; [reflexivity|reflexivity|discriminate].
  - split; [reflexivity|]. split; [reflexivity|]. discriminate.
Qed.

Lemma other_keys_untouched_witness :
  exists s' w',
    (mount ;;
     run [ChangeFile (Some {| name := "a.pdf" |}); ClickUpload;
          FetchSettled Sample.success "id-2" "2025-01-02T00:00:00.000Z"])
      initial_page
      {| localStorage := {[ "theme" := "dark" ]}; inflight := [];
         trace := [] |}
    = (Normal tt, s', w')
    /\ localStorage w' !! "theme" = Some "dark".
Proof.
  destruct (other_keys_untouched
              [ChangeFile (Some {| name := "a.pdf" |}); ClickUpload;
               FetchSettled Sample.success "id-2" "2025-01-02T00:00:00.000Z"]
              {| localStorage := {[ "theme" := "dark" ]}; inflight := [];
                 trace := [] |} "theme")
    as (s' & w' & E & Hk).
  - discriminate.
  - exists s', w'. split; [exact E|]. rewrite Hk. reflexivity.
Defined.

Lemma in_flight_is_selected_witness :
  exists s' w',
    (mount ;;
     run [ChangeFile (Some {| name := "a.pdf" |}); ClickUpload;
          ChangeFile (Some {| name := "b.pdf" |})])
      initial_page (Sample.world None)
    = (Normal tt, s', w')
    /\ in_flight_selected s' w'.
Proof. apply in_flight_is_selected. reflexivity. Defined.

Lemma content_stays_nonempty_witness :
  exists s' w',
    run [ChangeFile (Some {| name := "a.pdf" |}); ClickUpload;
         FetchSettled Sample.success "id-2" "2025-01-02T00:00:00.000Z"]
      {| files := [Sample.report]; isUploading := false;
         selectedFile := None; isLoading := false |}
      (Sample.world None)
    = (Normal tt, s', w')
    /\ Forall (fun r => content r <> "") (files s').
Proof.
  apply content_stays_nonempty. simpl. repeat constructor. discriminate.
Defined.

Lemma accepted_upload_is_announced_witness :
  exists r s' w',
    dispatch
      (FetchSettled Sample.success "id-2" "2025-01-02T00:00:00.000Z")
      {| files := [Sample.report]; isUploading := true;
         selectedFile := Some {| name := "a.pdf" |}; isLoading := false |}
      {| localStorage := ∅; inflight := [{| name := "a.pdf" |}];
         trace := [] |}
    = (Normal tt, s', w')
    /\ files s' = r :: [Sample.report]
    /\ toasts (trace w') =
         [] ++ [ToastSuccess
                  ("File processed successfully: " ++ filename r
                   ++ " has been converted to markdown")]
    /\ (exists t1 t2,
          trace w' = [] ++ t1 ++ ResetInput "file-upload" :: t2)
    /\ button_disabled s' = true.
Proof.
  apply (accepted_upload_is_announced {| name := "a.pdf" |} [] Sample.success
           "# Report" (Some "report.pdf")).
  - reflexivity.
  - constructor; [reflexivity|reflexivity|discriminate].
Defined.

Lemma failed_upload_can_be_retried_witness :
  exists s' w',
    run [FetchSettled (Rejected (ErrorObj "Failed to fetch")) "id-2"
           "2025-01-02T00:00:00.000Z";
         ClickUpload]
      {| files := [Sample.report]; isUploading := true;
         selectedFile := Some {| name := "a.pdf" |}; isLoading := false |}
      {| localStorage := ∅; inflight := [{| name := "a.pdf" |}];
         trace := [] |}
    = (Normal tt, s', w')
    /\ files s' = [Sample.report]
    /\ selectedFile s' = Some {| name := "a.pdf" |}
    /\ isUploading s' = true
    /\ inflight w' = [{| name := "a.pdf" |}]
    /\ requests (trace w') =
         [] ++ [FetchPost "/api/v1/file-processors/process-upload" "file"
                  {| name := "a.pdf" |}].
Proof.
  apply (failed_upload_can_be_retried {| name := "a.pdf" |}
           (Rejected (ErrorObj "Failed to fetch")) "id-2"
           "2025-01-02T00:00:00.000Z" "Failed to fetch").
  - reflexivity.
  - reflexivity.
  - apply (network_failure (ErrorObj "Failed to fetch")).
Defined.

Lemma stored_upload_is_not_resent_witness :
  let s := {| files := []; isUploading := true;
              selectedFile := Some {| name := "a.pdf" |};
              isLoading := false |} in
  let w := {| localStorage := ∅; inflight := [{| name := "a.pdf" |}];
              trace := [] |} in
  run [FetchSettled Sample.success "id-2" "2025-01-02T00:00:00.000Z";
       ClickUpload] s w
  = dispatch (FetchSettled Sample.success "id-2" "2025-01-02T00:00:00.000Z")
      s w.
Proof.
  intros s w.
  apply (stored_upload_is_not_resent {| name := "a.pdf" |} [] Sample.success
           "# Report" (Some "report.pdf")).
  - reflexivity.
  - constructor; [reflexivity|reflexivity|discriminate].
Defined.

Lemma reload_restores_registry_witness :
  let w :=
    Sample.world (Some (Sample.stringify [Sample.report; Sample.notes])) in
  exists t,
    mount initial_page w =
      (Normal tt,
       {| files := [Sample.report; Sample.notes]; isUploading := false;
          selectedFile := None; isLoading := false |},
       {| localStorage := localStorage w; inflight := inflight w;
          trace := trace w ++ t |})
    /\ toasts t = [].
Proof.
  intros w.
  apply (reload_restores_registry [Sample.report; Sample.notes] w).
  - reflexivity.
  - reflexivity.
  - discriminate.
Defined.

Lemma uploaded_record_opens_in_detail_witness :
  let s := {| files := [Sample.notes]; isUploading := true;
              selectedFile := Some {| name := "a.pdf" |};
              isLoading := false |} in
  let w := {| localStorage := ∅; inflight := [{| name := "a.pdf" |}];
              trace := [] |} in
  let after :=
    dispatch (FetchSettled Sample.success "id-1" "2025-01-01T00:00:00.000Z")
      s w in
  exists r,
    files after.1.2 = r :: [Sample.notes]
    /\ id r = "id-1"
    /\ Detail.render (Detail.enter "id-1" after.2).1.2 =
         Detail.FileView (filename r) "2025-01-01T00:00:00.000Z"
           (Detail.Shown "# Report") (Detail.Shown "# Report").
Proof.
  intros s w after.
  apply (uploaded_record_opens_in_detail {| name := "a.pdf" |} []
           Sample.success "# Report" (Some "report.pdf") "id-1"
           "2025-01-01T00:00:00.000Z" s w after.1.2 after.2).
  - reflexivity.
  - reflexivity.
  - constructor; [reflexivity|reflexivity|discriminate].
  - reflexivity.
  - reflexivity.
  - reflexivity.
  - discriminate.
Defined.

Lemma detail_effect_keeps_old_record_witness :
  let w :=
    Sample.world (Some (Sample.stringify [Sample.report; Sample.notes])) in
  (Detail.load_effect "id-9"
     {| Detail.file := Some Sample.report; Detail.isLoading := false |}
     w).1.2
  = {| Detail.file := Some Sample.report; Detail.isLoading := false |}
  /\ Detail.render
       (Detail.load_effect "id-9"
          {| Detail.file := Some Sample.report; Detail.isLoading := false |}
          w).1.2
     = Detail.FileView "report.pdf" "2025-01-01T00:00:00.000Z"
         (Detail.Shown "# Report") (Detail.Shown "# Report").
Proof.
  intros w.
  apply (detail_effect_keeps_old_record "id-9" Sample.report false w).
  intros text records Es Ep g Hg.
  vm_compute in Es. injection Es as <-.
  vm_compute in Ep. injection Ep as <-.
  destruct Hg as [<-|[<-|[]]]; discriminate.
Defined.

Lemma breadcrumb_on_detail_path_witness :
  Layout.FilesLayout (Some "id-1") "/logs/files/id-1" =
    Some [{| Layout.label := "Files"; Layout.href := Some "/logs/files" |};
          {| Layout.label := "Details (id-1)"; Layout.href := None |}]
  /\ exists i,
       Some "id-1" = Some i /\ i <> ""
       /\ "/logs/files/id-1" = ("/logs/files/" ++ i)%string
       /\ List.length
            [{| Layout.label := "Files";
                Layout.href := Some "/logs/files" |};
             {| Layout.label := "Details (id-1)"; Layout.href := None |}]
          = 2.
Proof.
  split.
  - apply (proj1 breadcrumb_on_detail_path Sample.report). discriminate.
  - apply (proj2 breadcrumb_on_detail_path (Some "id-1") "/logs/files/id-1").
    reflexivity.
Defined.

Lemma one_write_per_record_witness :
  exists s' w',
    run [ChangeFile (Some {| name := "a.pdf" |}); ClickUpload;
         FetchSettled (Rejected NonError) "id-2" "2025-01-02T00:00:00.000Z";
         ClickUpload;
         FetchSettled Sample.success "id-3" "2025-01-03T00:00:00.000Z"]
      {| files := [Sample.report]; isUploading := false;
         selectedFile := None; isLoading := false |}
      (Sample.world None)
    = (Normal tt, s', w')
    /\ List.length (writes (trace w')) + 1 <= 0 + List.length (files s')
    /\ List.length (writes (trace w')) + 1 = 0 + List.length (files s').
Proof.
  destruct (one_write_per_record
              [ChangeFile (Some {| name := "a.pdf" |}); ClickUpload;
               FetchSettled (Rejected NonError) "id-2"
                 "2025-01-02T00:00:00.000Z";
               ClickUpload;
               FetchSettled Sample.success "id-3" "2025-01-03T00:00:00.000Z"]
              {| files := [Sample.report]; isUploading := false;
                 selectedFile := None; isLoading := false |}
              (Sample.world None))
    as (s' & w' & E & Hle & Heq).
  - reflexivity.
  - exists s', w'. split; [exact E|]. split; [exact Hle|].
    apply Heq. intros m v. reflexivity.
Defined.

Lemma slot_follows_registry_witness :
  exists s' w',
    run [ChangeFile (Some {| name := "a.pdf" |}); ClickUpload;
         FetchSettled Sample.success "id-2" "2025-01-02T00:00:00.000Z"]
      {| files := [Sample.report]; isUploading := false;
         selectedFile := None; isLoading := false |}
      (Sample.world (Some (Sample.stringify [Sample.report])))
    = (Normal tt, s', w')
    /\ isLoading s' = false
    /\ slot w' = Some (JSON_stringify (files s')).
Proof.
  apply slot_follows_registry.
  - reflexivity.
  - reflexivity.
  - intros m v. reflexivity.
Defined.

Lemma loaded_page_lists_registry_witness :
  exists s' w',
    run [ChangeFile (Some {| name := "a.pdf" |}); ClickUpload;
         FetchSettled Sample.success "id-2" "2025-01-02T00:00:00.000Z"]
      {| files := []; isUploading := false; selectedFile := None;
         isLoading := false |}
      (Sample.world None)
    = (Normal tt, s', w')
    /\ renderContent s' =
         match files s' with
         | [] => EmptyState
         | _ :: _ => FilesTable (files s')
         end.
Proof. apply loaded_page_lists_registry. reflexivity. Defined.

Lemma foreign_slot_takes_page_down_witness :
  exists reason,
    @Untyped.mount Untyped.sample Sample.unlimited Untyped.initial
      (Sample.world (Some "null"))
    = (Throw reason,
       {| Untyped.files := Untyped.Null; Untyped.isUploading := false;
          Untyped.selectedFile := None; Untyped.isLoading := false |},
       Sample.world (Some "null")).
Proof.
  apply (@foreign_slot_takes_page_down Untyped.sample Sample.unlimited
           "null" Untyped.Null (Sample.world (Some "null"))).
  - reflexivity.
  - discriminate.
  - reflexivity.
  - apply (@Untyped.foreign_null Untyped.sample).
Defined.

Lemma listable_slot_is_written_back_witness :
  let registry := Untyped.of_files [Sample.report; Sample.notes] in
  let w := Sample.world (Some (Untyped.show registry)) in
  exists w',
    @Untyped.mount Untyped.sample Sample.unlimited Untyped.initial w =
      (Normal tt,
       {| Untyped.files := registry; Untyped.isUploading := false;
          Untyped.selectedFile := None; Untyped.isLoading := false |}, w')
    /\ slot w' = Some (Untyped.show registry)
    /\ writes (trace w') = [StorageWrite STORAGE_KEY (Untyped.show registry)].
Proof.
  intros registry w.
  destruct (@listable_slot_is_written_back Untyped.sample Sample.unlimited
              (Untyped.show registry)
              (List.map Untyped.of_file [Sample.report; Sample.notes]) w)
    as (w' & E & Hacc & _).
  - reflexivity.
  - discriminate.
  - reflexivity.
  - intros item [<-|[<-|[]]]; reflexivity.
  - exists w'. split; [exact E|]. exact (Hacc eq_refl).
Defined.
